(** * Knowledge Tree Generator: a shallow embedding of the extraction pipeline

    The repository is a Streamlit application (app.py) over two library
    classes: [WebScraper] (web_scraper.py: search, fetch, clean, summarise)
    and [KnowledgeTreeManager] (knowledge_tree.py: prompt, extract the JSON
    of the answer, decode, fall back).

    Python values are embedded as follows.
    - A [str] is a list of Unicode code points ([N]); [py] turns a literal
      into one.
    - [re.search] is a backtracking matcher over the fragment of the pattern
      language the two patterns of [_extract_json] use, with the priorities
      of the [re] module (greedy and lazy repetition, leftmost match).
    - JSON-like values are [pyval]; a [dict] is an association list in
      insertion order.
    - The document BeautifulSoup builds is a forest of [node]s; every tag
      carries the identity of its Python object.
    - The search provider, the HTTP client, the LLM client, prompt rendering,
      [json.loads] and the HTML parser are fields of [Services]; every call
      of an external service threads an abstract world and is recorded in a
      trace.  Exceptions are [Raise] results carrying [str(e)].
    - Of Streamlit the model keeps [st.error] and [st.session_state].

    Not represented: logging, the progress bar and the status text,
    [time.sleep], [st.rerun], and the constructors of the clients, which the
    handler runs before it searches.  The HTML parser is taken to return a
    document for every text, as html.parser does. *)

From Stdlib Require Import Strings.String Strings.Ascii.
From Stdlib Require Import List NArith ZArith Bool Lia.
Import ListNotations.

Set Implicit Arguments.
Set Warnings "-register-all".

(** ** Python strings *)

Definition char := N.
Definition pystr := list char.

(** The [str] of an ASCII literal. *)
Definition py (s : string) : pystr := map N_of_ascii (list_ascii_of_string s).

Definition ch_lf : char := 10%N.
Definition ch_cr : char := 13%N.
Definition ch_space : char := 32%N.
Definition ch_dquote : char := 34%N.
Definition ch_backtick : char := 96%N.
Definition ch_lbrace : char := 123%N.
Definition ch_rbrace : char := 125%N.

Definition in_range (lo hi c : N) : bool := ((lo <=? c) && (c <=? hi))%N.

(** [str.isspace] on one code point; it is also the class [\s] of a [str]
    pattern. *)
Definition is_space (c : char) : bool :=
  in_range 9 13 c || in_range 28 32 c || (c =? 133)%N || (c =? 160)%N
  || (c =? 5760)%N || in_range 8192 8202 c || (c =? 8232)%N || (c =? 8233)%N
  || (c =? 8239)%N || (c =? 8287)%N || (c =? 12288)%N.

(** The line boundaries of [str.splitlines]. *)
Definition is_linebreak (c : char) : bool :=
  in_range 10 13 c || in_range 28 30 c || (c =? 133)%N
  || (c =? 8232)%N || (c =? 8233)%N.

Fixpoint str_eqb (a b : pystr) : bool :=
  match a, b with
  | [], [] => true
  | x :: a', y :: b' => (x =? y)%N && str_eqb a' b'
  | _, _ => false
  end.

Fixpoint starts_with (p s : pystr) : bool :=
  match p, s with
  | [], _ => true
  | x :: p', y :: s' => (x =? y)%N && starts_with p' s'
  | _ :: _, [] => false
  end.

Fixpoint lstrip (s : pystr) : pystr :=
  match s with
  | [] => []
  | c :: s' => if is_space c then lstrip s' else s
  end.

Fixpoint rstrip (s : pystr) : pystr :=
  match s with
  | [] => []
  | c :: s' =>
      match rstrip s' with
      | [] => if is_space c then [] else [c]
      | r => c :: r
      end
  end.

(** [s.strip()] *)
Definition strip (s : pystr) : pystr := rstrip (lstrip s).

(** [s[:n]] for a Python integer [n]: a negative bound counts from the end. *)
Definition slice_to {A : Type} (n : Z) (l : list A) : list A :=
  if (n <? 0)%Z then firstn (length l - Z.to_nat (- n)) l
  else firstn (Z.to_nat n) l.

(** [sep.join(parts)] *)
Fixpoint join (sep : pystr) (parts : list pystr) : pystr :=
  match parts with
  | [] => []
  | [p] => p
  | p :: rest => p ++ sep ++ join sep rest
  end.

(** [s.splitlines()]: a carriage return followed by a line feed is one
    boundary, and a final boundary opens no further line. *)
Fixpoint splitlines (s : pystr) : list pystr :=
  match s with
  | [] => []
  | c :: s' =>
      if is_linebreak c then
        [] :: match s' with
              | d :: s'' => if ((c =? ch_cr) && (d =? ch_lf))%N
                            then splitlines s'' else splitlines s'
              | [] => []
              end
      else match splitlines s' with
           | [] => [[c]]
           | l :: ls => (c :: l) :: ls
           end
  end.

(** [s.split("  ")]: cut at every occurrence of two spaces, left to right. *)
Fixpoint split_2sp (s : pystr) : list pystr :=
  match s with
  | [] => [[]]
  | c :: s' =>
      let keep := match split_2sp s' with
                  | l :: ls => (c :: l) :: ls
                  | [] => [[c]]
                  end in
      match s' with
      | d :: s'' => if ((c =? ch_space) && (d =? ch_space))%N
                    then [] :: split_2sp s'' else keep
      | [] => keep
      end
  end.

Definition nonempty {A : Type} (l : list A) : bool :=
  match l with [] => false | _ => true end.

(** ** Regular expressions *)

(** The constructs the patterns of [_extract_json] are written with.
    Repetition is over a character class, as in both patterns. *)
Inductive regex : Type :=
| RLit (s : pystr)                     (* literal text *)
| RSeq (r1 r2 : regex)                 (* r1 r2 *)
| ROpt (r : regex)                     (* (?:r)?   greedy *)
| RStar (cls : char -> bool)           (* cls*     greedy *)
| RStarLazy (cls : char -> bool)       (* cls*?    lazy *)
| RGroup (r : regex).                  (* (r)      capturing group 1 *)

Definition or_else {A : Type} (a b : option A) : option A :=
  match a with Some _ => a | None => b end.

Fixpoint star_greedy {X : Type} (cls : char -> bool)
    (k : pystr -> option X) (s : pystr) : option X :=
  match s with
  | c :: s' => if cls c then or_else (star_greedy cls k s') (k s) else k s
  | [] => k s
  end.

Fixpoint star_lazy {X : Type} (cls : char -> bool)
    (k : pystr -> option X) (s : pystr) : option X :=
  or_else (k s)
    match s with
    | c :: s' => if cls c then star_lazy cls k s' else None
    | [] => None
    end.

(** [bt r s g k]: match [r] at the start of [s], trying the alternatives in
    the order of a backtracking engine, and give the remaining text and the
    text of group 1 to the continuation [k]; the first alternative the
    continuation accepts wins. *)
Fixpoint bt {X : Type} (r : regex) (s : pystr) (g : option pystr)
    (k : pystr -> option pystr -> option X) : option X :=
  match r with
  | RLit l => if starts_with l s then k (skipn (length l) s) g else None
  | RSeq r1 r2 => bt r1 s g (fun s1 g1 => bt r2 s1 g1 k)
  | ROpt r1 => or_else (bt r1 s g k) (k s g)
  | RStar cls => star_greedy cls (fun s1 => k s1 g) s
  | RStarLazy cls => star_lazy cls (fun s1 => k s1 g) s
  | RGroup r1 =>
      bt r1 s g (fun s1 _ => k s1 (Some (firstn (length s - length s1) s)))
  end.

(** [re.search(r, s)]: the match at the leftmost position that has one.
    The result is [group(1)] of the match object ([None] inside [Some] when
    the group took no part). *)
Fixpoint re_search (r : regex) (s : pystr) : option (option pystr) :=
  or_else (bt r s None (fun _ g => Some g))
    match s with
    | [] => None
    | _ :: s' => re_search r s'
    end.

Definition any_char (_ : char) : bool := true.

Definition fence : pystr := [ch_backtick; ch_backtick; ch_backtick].

(** [```(?:json)?\s*([\s\S]*?)\s*```] *)
Definition fence_pattern : regex :=
  RSeq (RLit fence)
    (RSeq (ROpt (RLit (py "json")))
       (RSeq (RStar is_space)
          (RSeq (RGroup (RStarLazy any_char))
             (RSeq (RStar is_space) (RLit fence))))).

(** [({[\s\S]*})] *)
Definition brace_pattern : regex :=
  RGroup (RSeq (RLit [ch_lbrace]) (RSeq (RStar any_char) (RLit [ch_rbrace]))).

(** [m.group(1)]; the group takes part in every match of both patterns. *)
Definition group1 (m : option pystr) : pystr :=
  match m with Some g => g | None => [] end.

(** knowledge_tree.py, [KnowledgeTreeManager._extract_json]. *)
Definition _extract_json (text : pystr) : pystr :=
  match re_search fence_pattern text with
  | Some m => group1 m
  | None =>
      match re_search brace_pattern text with
      | Some m => group1 m
      | None => text
      end
  end.

(** *** The extractor as the specification words it

    These definitions follow the specification's three steps and are
    compared with [_extract_json] below. *)

(** The text before and after the first occurrence of the fence. *)
Fixpoint find_fence (s : pystr) : option (pystr * pystr) :=
  if starts_with fence s then Some ([], skipn 3 s)
  else match s with
       | [] => None
       | c :: s' =>
           match find_fence s' with
           | Some (a, b) => Some (c :: a, b)
           | None => None
           end
       end.

(** The inner content of the first fenced block: what stands between the
    first fence and the next one. *)
Definition fenced_block (text : pystr) : option pystr :=
  match find_fence text with
  | Some (_, rest) =>
      match find_fence rest with
      | Some (body, _) => Some body
      | None => None
      end
  | None => None
  end.

(** The optional tag of the block. *)
Definition untag (body : pystr) : pystr :=
  if starts_with (py "json") body then skipn 4 body else body.

(** The text after the first opening brace. *)
Fixpoint after_first_open (s : pystr) : option pystr :=
  match s with
  | [] => None
  | c :: s' => if (c =? ch_lbrace)%N then Some s' else after_first_open s'
  end.

(** The text up to and including the last closing brace. *)
Fixpoint through_last_close (s : pystr) : option pystr :=
  match s with
  | [] => None
  | c :: s' =>
      match through_last_close s' with
      | Some m => Some (c :: m)
      | None => if (c =? ch_rbrace)%N then Some [c] else None
      end
  end.

(** From the first opening brace through the last closing brace after it. *)
Definition brace_span (text : pystr) : option pystr :=
  match after_first_open text with
  | Some r =>
      match through_last_close r with
      | Some m => Some (ch_lbrace :: m)
      | None => None
      end
  | None => None
  end.

Definition extract_json_spec (text : pystr) : pystr :=
  match fenced_block text with
  | Some body => strip (untag body)
  | None =>
      match brace_span text with
      | Some j => j
      | None => text
      end
  end.

(** The fence pattern after its opening fence and optional tag:
    [\s*([\s\S]*?)\s*```]. *)
Definition fence_tail : regex :=
  RSeq (RStar is_space)
    (RSeq (RGroup (RStarLazy any_char)) (RSeq (RStar is_space) (RLit fence))).

(** What the search with the fence pattern has to return. *)
Definition fenced_result (text : pystr) : option (option pystr) :=
  match fenced_block text with
  | Some body => Some (Some (strip (untag body)))
  | None => None
  end.

(** The inputs of the specification's three examples. *)
Definition example_fenced : pystr :=
  py "prefix ```json" ++ [ch_lf] ++ py "{" ++ [ch_dquote] ++ py "a"
    ++ [ch_dquote] ++ py ":1}" ++ [ch_lf] ++ py "``` suffix".

Definition example_braces : pystr :=
  py "foo {" ++ [ch_dquote] ++ py "a" ++ [ch_dquote] ++ py ":1} bar".

Definition example_json : pystr :=
  py "{" ++ [ch_dquote] ++ py "a" ++ [ch_dquote] ++ py ":1}".

(** ** Python values *)

Inductive pyval : Type :=
| VNone
| VBool (b : bool)
| VInt (z : Z)
| VFloat (repr : pystr)
| VStr (s : pystr)
| VList (items : list pyval)
| VDict (entries : list (pystr * pyval)).

Definition pydict := list (pystr * pyval).

Fixpoint dict_get (k : pystr) (d : pydict) : option pyval :=
  match d with
  | [] => None
  | (k', v) :: d' => if str_eqb k k' then Some v else dict_get k d'
  end.

(** [d[k] = v]: an existing key keeps its place. *)
Fixpoint dict_set (k : pystr) (v : pyval) (d : pydict) : pydict :=
  match d with
  | [] => [(k, v)]
  | (k', v') :: d' =>
      if str_eqb k k' then (k, v) :: d' else (k', v') :: dict_set k v d'
  end.

Definition dict_has (k : pystr) (d : pydict) : bool :=
  match dict_get k d with Some _ => true | None => false end.

(** [d.get(k, "")] *)
Definition get_or_empty (k : pystr) (d : pydict) : pyval :=
  match dict_get k d with Some v => v | None => VStr [] end.

Definition is_str (v : pyval) : bool :=
  match v with VStr _ => true | _ => false end.

(** ** Results of calls that may raise *)

Inductive result (A : Type) : Type :=
| Ok (a : A)
| Raise (msg : pystr).

Arguments Ok {A} a.
Arguments Raise {A} msg.

(** The errors the interpreter itself raises in the modelled code. *)
Inductive fault : Type :=
| BadSubscript (v : pyval)              (* v[...] with a subscript v does not take *)
| MissingKey (k : pystr)                (* KeyError *)
| NoGetMethod (v : pyval)               (* v.get on a value that is no dict *)
| PatternOnNonStr (v : pyval)           (* re.search on a value that is no str *)
| NoItemAssignment (v : pyval).         (* v[k] = ... on a value that is no dict *)

(** ** The parsed document *)

Inductive node : Type :=
| NString (counted : bool) (text : pystr)
| NTag (id : nat) (name : pystr) (children : list node).

Definition soup := list node.

Definition name_in (name : pystr) (names : list pystr) : bool :=
  existsb (str_eqb name) names.

Definition id_in (i : nat) (ids : list nat) : bool :=
  existsb (Nat.eqb i) ids.

(** [soup(names)], that is [find_all]: the tags with one of the names, in
    document order, each by its identity. *)
Fixpoint find_all_node (names : list pystr) (n : node) : list nat :=
  match n with
  | NString _ _ => []
  | NTag i name children =>
      (if name_in name names then [i] else [])
        ++ flat_map (find_all_node names) children
  end.

Definition find_all (names : list pystr) (doc : soup) : list nat :=
  flat_map (find_all_node names) doc.

(** [tag.extract()]: the tag leaves the tree with everything below it. *)
Fixpoint extract_node (i : nat) (n : node) : list node :=
  match n with
  | NString _ _ => [n]
  | NTag j name children =>
      if Nat.eqb j i then []
      else [NTag j name (flat_map (extract_node i) children)]
  end.

Definition extract (i : nat) (doc : soup) : soup :=
  flat_map (extract_node i) doc.

(** All the extractions of a loop over [ids] at once. *)
Fixpoint extract_ids_node (ids : list nat) (n : node) : list node :=
  match n with
  | NString _ _ => [n]
  | NTag j name children =>
      if id_in j ids then []
      else [NTag j name (flat_map (extract_ids_node ids) children)]
  end.

(** [soup.get_text()]: the strings of the tree, joined without separator;
    comments, declarations and the like ([counted] false) are left out. *)
Fixpoint get_text_node (n : node) : pystr :=
  match n with
  | NString true text => text
  | NString false _ => []
  | NTag _ _ children => flat_map get_text_node children
  end.

Definition get_text (doc : soup) : pystr := flat_map get_text_node doc.

Definition blocked_tags : list pystr :=
  [py "script"; py "style"; py "nav"; py "footer"; py "header"].

(** web_scraper.py lines 81-82: the loop over [soup([...])]. *)
Definition remove_blocked (doc : soup) : soup :=
  fold_left (fun d i => extract i d) (find_all blocked_tags doc) doc.

(** web_scraper.py lines 85-95: text, lines, chunks, truncation. *)
Definition clean_text (doc : soup) : pystr :=
  let text := get_text doc in
  let lines := map strip (splitlines text) in
  let chunks := flat_map (fun line => map strip (split_2sp line)) lines in
  let text := join [ch_lf] (filter nonempty chunks) in
  slice_to 8000 text.

(** The strings of a document that stand outside every blocked element. *)
Fixpoint visible_strings_node (names : list pystr) (n : node) : list pystr :=
  match n with
  | NString true text => [text]
  | NString false _ => []
  | NTag _ name children =>
      if name_in name names then []
      else flat_map (visible_strings_node names) children
  end.

Definition visible_strings (names : list pystr) (doc : soup) : list pystr :=
  flat_map (visible_strings_node names) doc.

(** ** External services, the machine and its monad *)

(** The two chat models: [WebScraper.model] (temperature 0.3) and
    [KnowledgeTreeManager.model] (temperature 0.2). *)
Inductive llm_client : Type := ScraperModel | TreeModel.

(** What the code calls and does not define.  A call that reaches the
    outside takes the world and returns the next one. *)
Record Services : Type := {
  World : Type;
  (* SerpAPIWrapper.run(query) *)
  serp_run : pystr -> World -> result pystr * World;
  (* GoogleSearch({"q": query, "num": num, ...}).get_dict() *)
  serp_get_dict : pystr -> Z -> World -> result pydict * World;
  (* requests.get(url, ...), raise_for_status(), response.text *)
  http_get : pyval -> World -> result pystr * World;
  (* BeautifulSoup(html, 'html.parser') *)
  bs_parse : pystr -> soup;
  (* model.invoke(prompt).content *)
  llm_invoke : llm_client -> pystr -> World -> result pyval * World;
  (* the three prompt templates, rendered *)
  summary_prompt : pystr -> pystr -> result pystr;
  tree_prompt : pystr -> pystr -> result pystr;
  expand_prompt : pystr -> pystr -> pystr -> result pystr;
  (* json.loads *)
  json_loads : pystr -> result pyval;
  (* format(v) of a value that is no str, as an f-string renders it *)
  format_other : pyval -> pystr;
  (* str(e) of an error of the interpreter *)
  fault_text : fault -> pystr
}.

Inductive event : Type :=
| EvSerpRun (query : pystr)
| EvSerpSearch (query : pystr) (num : Z)
| EvHttpGet (url : pyval)
| EvLLM (client : llm_client) (prompt : pystr)
| EvStError (msg : pystr).

(** [st.session_state] *)
Record session_state : Type := {
  knowledge_tree : pyval;
  current_subtopic : pyval;
  expanded_subtopic : pyval
}.

Record machine (W : Type) : Type := {
  world : W;
  trace : list event;
  session : session_state
}.

Definition is_fetch (e : event) : bool :=
  match e with EvHttpGet _ => true | _ => false end.

Definition is_llm (e : event) : bool :=
  match e with EvLLM _ _ => true | _ => false end.

Definition is_st_error (e : event) : bool :=
  match e with EvStError _ => true | _ => false end.

Definition count (p : event -> bool) (t : list event) : nat :=
  length (filter p t).

(** An entry of [content_data]: the dict with the keys title, content and
    url the loops build for a page that was fetched. *)
Record source_document : Type := {
  doc_title : pyval;
  doc_content : pystr;
  doc_url : pyval
}.

Section Pipeline.

Context (S : Services).

Definition M (A : Type) : Type :=
  machine (World S) -> result A * machine (World S).

Definition ret {A : Type} (a : A) : M A := fun m => (Ok a, m).

Definition bind {A B : Type} (c : M A) (f : A -> M B) : M B :=
  fun m =>
    match c m with
    | (Ok a, m') => f a m'
    | (Raise e, m') => (Raise e, m')
    end.

(** [try: c  except Exception as e: h(str(e))] *)
Definition try_except {A : Type} (c : M A) (h : pystr -> M A) : M A :=
  fun m =>
    match c m with
    | (Ok a, m') => (Ok a, m')
    | (Raise e, m') => h e m'
    end.

Definition lift {A : Type} (r : result A) : M A := fun m => (r, m).

(** One call of an external service, recorded in the trace. *)
Definition call {A : Type} (ev : event)
    (f : World S -> result A * World S) : M A :=
  fun m =>
    let (r, w) := f (world m) in
    (r, {| world := w; trace := trace m ++ [ev]; session := session m |}).

Definition st_error (msg : pystr) : M unit :=
  fun m =>
    (Ok tt, {| world := world m; trace := trace m ++ [EvStError msg];
               session := session m |}).

Definition set_session (s : session_state) : M unit :=
  fun m => (Ok tt, {| world := world m; trace := trace m; session := s |}).

Notation "x <- c1 ;; c2" := (bind c1 (fun x => c2))
  (at level 61, c1 at next level, right associativity).

Definition fail (f : fault) : result pyval := Raise (fault_text S f).

(** [v[k]] for a string key. *)
Definition getitem (v : pyval) (k : pystr) : result pyval :=
  match v with
  | VDict d =>
      match dict_get k d with
      | Some x => Ok x
      | None => fail (MissingKey k)
      end
  | _ => fail (BadSubscript v)
  end.

(** [v[k] = x] for a string key. *)
Definition setitem (v : pyval) (k : pystr) (x : pyval) : result pyval :=
  match v with
  | VDict d => Ok (VDict (dict_set k x d))
  | _ => fail (NoItemAssignment v)
  end.

(** The f-string rendering of a value. *)
Definition to_text (v : pyval) : pystr :=
  match v with VStr s => s | _ => format_other S v end.

(** *** web_scraper.py, [WebScraper] *)

(** The elements [for result in v[:n]] runs over. *)
Definition slice_items (v : pyval) (n : Z) : result (list pyval) :=
  match v with
  | VList items => Ok (slice_to n items)
  | VStr s => Ok (map (fun c => VStr [c]) (slice_to n s))
  | _ => Raise (fault_text S (BadSubscript v))
  end.

Definition search_record (d : pydict) : pyval :=
  VDict [ (py "title", get_or_empty (py "title") d);
          (py "snippet", get_or_empty (py "snippet") d);
          (py "link", get_or_empty (py "link") d) ].

Definition is_search_record (r : pyval) : Prop :=
  exists d, r = search_record d.

(** Lines 54-60: the loop that builds [formatted_results]. *)
Fixpoint format_results (items : list pyval) (formatted : list pyval)
    : result (list pyval) :=
  match items with
  | [] => Ok formatted
  | VDict d :: rest => format_results rest (formatted ++ [search_record d])
  | v :: _ => Raise (fault_text S (NoGetMethod v))
  end.

Definition organic_results : pystr := py "organic_results".

Definition search_web (query : pystr) (num_results : Z) : M (list pyval) :=
  try_except
    (_raw <- call (EvSerpRun query) (serp_run S query) ;;
     results <- call (EvSerpSearch query num_results)
                  (serp_get_dict S query num_results) ;;
     if negb (nonempty results) || negb (dict_has organic_results results)
     then ret []
     else
       organic <- lift (getitem (VDict results) organic_results) ;;
       window <- lift (slice_items organic num_results) ;;
       lift (format_results window []))
    (fun _ => ret []).

(** [search_web] step by step: the result and the machine after each way
    the body of the [try] can end. *)
Definition search_outcome (query : pystr) (n : Z) (m : machine (World S))
    : list pyval * machine (World S) :=
  let (r1, w1) := serp_run S query (world m) in
  let m1 := {| world := w1; trace := trace m ++ [EvSerpRun query];
               session := session m |} in
  match r1 with
  | Raise _ => ([], m1)
  | Ok _ =>
      let (r2, w2) := serp_get_dict S query n w1 in
      let m2 := {| world := w2;
                   trace := (trace m ++ [EvSerpRun query]) ++ [EvSerpSearch query n];
                   session := session m |} in
      match r2 with
      | Raise _ => ([], m2)
      | Ok payload =>
          match dict_get organic_results payload with
          | Some (VList items) =>
              match format_results (slice_to n items) [] with
              | Ok out => (out, m2)
              | Raise _ => ([], m2)
              end
          | _ => ([], m2)
          end
      end
  end.

(** Lines 78-97 of [fetch_article_content]: from the page to its text. *)
Definition html_text (html : pystr) : pystr :=
  clean_text (remove_blocked (bs_parse S html)).

Definition fetch_article_content (url : pyval) : M pystr :=
  try_except
    (html <- call (EvHttpGet url) (http_get S url) ;;
     ret (html_text html))
    (fun _ => ret []).

(** The loop over the search results that fills [content_data]; it is
    written once in [analyze_topic] and once in app.py. *)
Fixpoint collect_content (results : list pyval)
    (content_data : list source_document) : M (list source_document) :=
  match results with
  | [] => ret content_data
  | result :: rest =>
      link <- lift (getitem result (py "link")) ;;
      content <- fetch_article_content link ;;
      if nonempty content then
        title <- lift (getitem result (py "title")) ;;
        url <- lift (getitem result (py "link")) ;;
        collect_content rest
          (content_data ++
             [{| doc_title := title; doc_content := content; doc_url := url |}])
      else collect_content rest content_data
  end.

(** The same loop as the specification words it: one fetch per result, in
    order, then the results whose content is empty are left out.  Compared
    with [collect_content] below. *)
Definition record_field (k : pystr) (r : pyval) : pyval :=
  match r with
  | VDict d => match dict_get k d with Some v => v | None => VNone end
  | _ => VNone
  end.

Definition text_of (r : result pystr) : pystr :=
  match r with Ok text => text | Raise _ => [] end.

Fixpoint fetch_each (results : list pyval) (m : machine (World S))
    : list source_document * machine (World S) :=
  match results with
  | [] => ([], m)
  | r :: rest =>
      let (c, m1) := fetch_article_content (record_field (py "link") r) m in
      let (docs, m2) := fetch_each rest m1 in
      ({| doc_title := record_field (py "title") r;
          doc_content := text_of c;
          doc_url := record_field (py "link") r |} :: docs, m2)
  end.

Definition has_content (item : source_document) : bool :=
  nonempty (doc_content item).

Definition source_block (item : source_document) : pystr :=
  py "SOURCE: " ++ to_text (doc_title item) ++ [ch_lf] ++ doc_content item.

Definition combine_content (content_data : list source_document) : pystr :=
  join [ch_lf; ch_lf] (map source_block content_data).

Definition source_urls (content_data : list source_document) : pyval :=
  VList (map doc_url content_data).

Definition _summarize_content (topic content : pystr) : M pyval :=
  try_except
    (prompt <- lift (summary_prompt S topic content) ;;
     call (EvLLM ScraperModel prompt) (llm_invoke S ScraperModel prompt))
    (fun _ => ret (VStr (py "Failed to summarize content due to an error."))).

Definition analyze_topic (topic : pystr) : M pyval :=
  search_results <- search_web topic 5 ;;
  content_data <- collect_content (slice_to 3 search_results) [] ;;
  let combined_content := combine_content content_data in
  summary <- _summarize_content topic combined_content ;;
  ret (VDict [ (py "topic", VStr topic);
               (py "summary", summary);
               (py "sources", source_urls content_data) ]).

(** *** knowledge_tree.py, [KnowledgeTreeManager] *)

(** [self._extract_json(response.content)]: the pattern search raises on a
    content that is no [str]. *)
Definition extract_json_of (content : pyval) : result pystr :=
  match content with
  | VStr text => Ok (_extract_json text)
  | _ => Raise (fault_text S (PatternOnNonStr content))
  end.

Definition fallback_tree (topic e : pystr) : pyval :=
  VDict [ (py "topic", VStr topic);
          (py "subtopics",
           VList [ VDict [ (py "name", VStr (py "Error generating knowledge tree"));
                           (py "key_points",
                            VList [ VDict [ (py "point", VStr (py "Error"));
                                            (py "explanation",
                                             VStr (py "Failed to generate knowledge tree: " ++ e)) ] ]) ] ]) ].

Definition generate_knowledge_tree (topic content : pystr) : M pyval :=
  try_except
    (prompt <- lift (tree_prompt S topic content) ;;
     response <- call (EvLLM TreeModel prompt) (llm_invoke S TreeModel prompt) ;;
     json_str <- lift (extract_json_of response) ;;
     lift (json_loads S json_str))
    (fun e => ret (fallback_tree topic e)).

Definition research_topic (topic summary : pystr) (sources : pyval) : M pyval :=
  tree <- generate_knowledge_tree topic summary ;;
  lift (setitem tree (py "sources") sources).

Definition fallback_expansion (subtopic e : pystr) : pyval :=
  VDict [ (py "subtopic", VStr subtopic);
          (py "overview", VStr (py "Failed to expand subtopic: " ++ e));
          (py "aspects", VList []) ].

Definition expand_subtopic (topic subtopic content : pystr) : M pyval :=
  try_except
    (prompt <- lift (expand_prompt S topic subtopic content) ;;
     response <- call (EvLLM TreeModel prompt) (llm_invoke S TreeModel prompt) ;;
     json_str <- lift (extract_json_of response) ;;
     lift (json_loads S json_str))
    (fun e => ret (fallback_expansion subtopic e)).

(** *** app.py, the handler of the button "Generate Knowledge Tree" *)

Definition msg_no_topic : pystr := py "Please enter a topic to research.".

Definition msg_no_results : pystr :=
  py "No search results found. Please try a different topic.".

Definition search_button_handler (topic : pystr) (num_results : Z) : M unit :=
  if negb (nonempty topic) then st_error msg_no_topic
  else
    try_except
      (search_results <- search_web topic num_results ;;
       if negb (nonempty search_results) then st_error msg_no_results
       else
         content_data <- collect_content search_results [] ;;
         let combined_content := combine_content content_data in
         tree <- generate_knowledge_tree topic combined_content ;;
         tree' <- lift (setitem tree (py "sources") (source_urls content_data)) ;;
         set_session {| knowledge_tree := tree';
                        current_subtopic := VNone;
                        expanded_subtopic := VNone |})
      (fun e => st_error (py "An error occurred: " ++ e)).

End Pipeline.

(** ** The shapes the prompts declare *)

Definition has_str (k : pystr) (d : pydict) : bool :=
  match dict_get k d with Some (VStr _) => true | _ => false end.

(** A key point: [{"point": ..., "explanation": ...}]. *)
Definition valid_key_point (v : pyval) : bool :=
  match v with
  | VDict d => has_str (py "point") d && has_str (py "explanation") d
  | _ => false
  end.

(** A subtopic: [{"name": ..., "key_points": [...]}]. *)
Definition valid_subtopic (v : pyval) : bool :=
  match v with
  | VDict d =>
      has_str (py "name") d
      && match dict_get (py "key_points") d with
         | Some (VList points) => forallb valid_key_point points
         | _ => false
         end
  | _ => false
  end.

(** The tree of knowledge_tree.py lines 41-56; [sources] is attached
    afterwards and, when present, is a list of strings. *)
Definition valid_knowledge_tree (v : pyval) : bool :=
  match v with
  | VDict d =>
      has_str (py "topic") d
      && match dict_get (py "subtopics") d with
         | Some (VList subtopics) => forallb valid_subtopic subtopics
         | _ => false
         end
      && match dict_get (py "sources") d with
         | None => true
         | Some (VList urls) => forallb is_str urls
         | Some _ => false
         end
  | _ => false
  end.

(** The search result as the specification words it: the three fields
    [title], [snippet] and [url], each a string. *)
Definition search_result_as_specified (v : pyval) : Prop :=
  exists t s u,
    v = VDict [ (py "title", VStr t); (py "snippet", VStr s); (py "url", VStr u) ].

(** ** Stand-ins for the external services

    Deterministic services over a world that counts the calls made, used
    to run the pipeline on concrete inputs. *)

Definition stub_services
    (payload : result pydict)
    (page : pyval -> result pystr)
    (parsed : pystr -> soup)
    (answer : result pyval)
    (loads : pystr -> result pyval) : Services :=
  {| World := nat;
     serp_run := fun _ w => (Ok [], Datatypes.S w);
     serp_get_dict := fun _ _ w => (payload, Datatypes.S w);
     http_get := fun url w => (page url, Datatypes.S w);
     bs_parse := parsed;
     llm_invoke := fun _ _ w => (answer, Datatypes.S w);
     summary_prompt := fun topic content => Ok (topic ++ [ch_lf] ++ content);
     tree_prompt := fun topic content => Ok (topic ++ [ch_lf] ++ content);
     expand_prompt := fun topic subtopic content =>
                        Ok (topic ++ [ch_lf] ++ subtopic ++ [ch_lf] ++ content);
     json_loads := loads;
     format_other := fun _ => py "?";
     fault_text := fun _ => py "error" |}.

Definition machine0 : machine nat :=
  {| world := 0;
     trace := [];
     session := {| knowledge_tree := VNone;
                   current_subtopic := VNone;
                   expanded_subtopic := VNone |} |}.

(** A page whose document has a paragraph and a script. *)
Definition sample_doc : soup :=
  [ NTag 0 (py "html")
      [ NTag 1 (py "head") [ NTag 2 (py "script") [ NString true (py "var x;") ] ];
        NTag 3 (py "body")
          [ NTag 4 (py "nav") [ NTag 5 (py "a") [ NString true (py "menu") ] ];
            NTag 6 (py "p") [ NString true (py "hello  PAGE ") ];
            NString false (py "note") ] ] ].

Definition provider_entries (title link : string) : pydict :=
  [ (py "title", VStr (py title)); (py "link", VStr (py link)) ].

Definition provider_item (title link : string) : pyval :=
  VDict (provider_entries title link).

(** Pages: every URL but "B" answers with HTML. *)
Definition sample_page (url : pyval) : result pystr :=
  match url with
  | VStr u => if str_eqb u (py "B") then Raise (py "404") else Ok (py "<html>")
  | _ => Raise (py "bad url")
  end.

Definition sample_loads (s : pystr) : result pyval :=
  if str_eqb s example_json
  then Ok (VDict [ (py "topic", VStr (py "T")); (py "sources", VStr (py "old")) ])
  else Raise (py "Expecting value").

(** No results: the provider answers with an error payload. *)
Definition services_no_results : Services :=
  stub_services (Ok [ (py "error", VStr (py "no results")) ])
    sample_page (fun _ => sample_doc) (Ok (VStr example_fenced)) sample_loads.

(** Four results, the second of which cannot be fetched. *)
Definition services_four : Services :=
  stub_services
    (Ok [ (organic_results,
           VList [ provider_item "a" "A"; provider_item "b" "B";
                   provider_item "c" "C"; provider_item "d" "D" ]) ])
    sample_page (fun _ => sample_doc) (Ok (VStr example_fenced)) sample_loads.

(** As [services_four], with a model that fails. *)
Definition services_llm_down : Services :=
  stub_services
    (Ok [ (organic_results,
           VList [ provider_item "a" "A"; provider_item "b" "B";
                   provider_item "c" "C"; provider_item "d" "D" ]) ])
    sample_page (fun _ => sample_doc) (Raise (py "quota exceeded")) sample_loads.

(** One result whose title the provider sent as null. *)
Definition services_null_title : Services :=
  stub_services
    (Ok [ (organic_results, VList [ VDict [ (py "title", VNone) ] ]) ])
    sample_page (fun _ => sample_doc) (Ok (VStr example_fenced)) sample_loads.

(** ** Further notions used to state properties of the code *)

(** [x] immediately followed by [y] somewhere in [s]. *)
Fixpoint adjacent (x y : char) (s : pystr) : bool :=
  match s with
  | a :: (b :: _) as t => ((a =? x) && (b =? y))%N || adjacent x y t
  | _ => false
  end.

(** The chunks [clean_text] joins, before the truncation. *)
Definition text_chunks (text : pystr) : list pystr :=
  filter nonempty
    (flat_map (fun line => map strip (split_2sp line))
       (map strip (splitlines text))).

(** What every chunk of the cleaned text is: not empty, not starting with
    whitespace, free of line boundaries and of two spaces in a row. *)
Definition tidy_chunk (p : pystr) : Prop :=
  p <> []
  /\ (forall c r, p = c :: r -> is_space c = false)
  /\ (forall c, In c p -> is_linebreak c = false)
  /\ adjacent ch_space ch_space p = false.

Definition is_dict (v : pyval) : bool :=
  match v with VDict _ => true | _ => false end.

Definition is_list (v : pyval) : bool :=
  match v with VList _ => true | _ => false end.

(** Every page is down. *)
Definition services_pages_down : Services :=
  stub_services
    (Ok [ (organic_results,
           VList [ provider_item "a" "A"; provider_item "b" "B" ]) ])
    (fun _ => Raise (py "timeout")) (fun _ => sample_doc)
    (Ok (VStr example_fenced)) sample_loads.


(** The second organic result is a string, not an object. *)
Definition services_bad_item : Services :=
  stub_services
    (Ok [ (organic_results,
           VList [ provider_item "a" "A"; VStr (py "oops");
                   provider_item "c" "C" ]) ])
    sample_page (fun _ => sample_doc)
    (Ok (VStr example_fenced)) sample_loads.

(** The first call of the provider fails. *)
Definition services_run_down : Services :=
  {| World := nat;
     serp_run := fun _ w => (Raise (py "network"), Datatypes.S w);
     serp_get_dict := fun _ _ w =>
       (Ok [ (organic_results, VList [ provider_item "a" "A" ]) ], Datatypes.S w);
     http_get := fun url w => (sample_page url, Datatypes.S w);
     bs_parse := fun _ => sample_doc;
     llm_invoke := fun _ _ w => (Ok (VStr example_fenced), Datatypes.S w);
     summary_prompt := fun topic content => Ok (topic ++ [ch_lf] ++ content);
     tree_prompt := fun topic content => Ok (topic ++ [ch_lf] ++ content);
     expand_prompt := fun topic subtopic content =>
                        Ok (topic ++ [ch_lf] ++ subtopic ++ [ch_lf] ++ content);
     json_loads := sample_loads;
     format_other := fun _ => py "?";
     fault_text := fun _ => py "error" |}.

(** * Proofs *)

Unset Implicit Arguments.
#[local] Arguments N.eqb : simpl never.
#[local] Arguments N.leb : simpl never.

Ltac run_monad :=
  unfold bind, try_except, lift, call, ret, st_error, set_session in *.

(** ** Strings *)

Lemma or_else_none_r {A : Type} (a : option A) : or_else a None = a.
Proof. destruct a; reflexivity. Qed.

Lemma starts_with_split (p s : pystr) :
  starts_with p s = true -> s = p ++ skipn (length p) s.
Proof.
  revert s; induction p as [|x p IH]; intros [|y s] H; simpl in *;
    try reflexivity; try discriminate.
  apply andb_true_iff in H as [Hx Hp].
  apply N.eqb_eq in Hx; subst y.
  f_equal; auto.
Qed.

Lemma starts_with_app (p t : pystr) : starts_with p (p ++ t) = true.
Proof.
  induction p as [|x p IH]; simpl; [reflexivity|].
  now rewrite N.eqb_refl.
Qed.

Lemma starts_with_app_r (p b x : pystr) :
  starts_with p b = true -> starts_with p (b ++ x) = true.
Proof.
  revert b; induction p as [|c p IH]; intros [|d b] H; simpl in *;
    try reflexivity; try discriminate.
  apply andb_true_iff in H as [Hc Hp].
  rewrite Hc; simpl; auto.
Qed.

Lemma space_not_backtick (c : char) : is_space c = true -> c <> ch_backtick.
Proof. intros H E; subst c; vm_compute in H; discriminate. Qed.

Lemma fence_head (c : char) (s : pystr) :
  starts_with fence (c :: s) = true -> c = ch_backtick.
Proof.
  simpl; intros H.
  apply andb_true_iff in H as [H _].
  apply N.eqb_eq in H; auto.
Qed.

Lemma fence_not_space (c : char) (s : pystr) :
  is_space c = true -> starts_with fence (c :: s) = false.
Proof.
  intros Hc.
  destruct (starts_with fence (c :: s)) eqn:E; [|reflexivity].
  apply fence_head in E.
  now apply space_not_backtick in Hc.
Qed.

Lemma find_fence_eq (s : pystr) :
  find_fence s =
    if starts_with fence s then Some ([], skipn 3 s)
    else match s with
         | [] => None
         | c :: s' =>
             match find_fence s' with
             | Some (a, b) => Some (c :: a, b)
             | None => None
             end
         end.
Proof. destruct s; reflexivity. Qed.

Lemma find_fence_here (s : pystr) :
  starts_with fence s = true -> find_fence s = Some ([], skipn 3 s).
Proof. intros H; rewrite find_fence_eq, H; reflexivity. Qed.

Lemma find_fence_next (c : char) (s : pystr) :
  starts_with fence (c :: s) = false ->
  find_fence (c :: s) =
    match find_fence s with
    | Some (a, b) => Some (c :: a, b)
    | None => None
    end.
Proof. intros H; rewrite find_fence_eq, H; reflexivity. Qed.

(** What [find_fence] returns is a decomposition of the text. *)
Lemma find_fence_some (s a b : pystr) :
  find_fence s = Some (a, b) -> s = a ++ fence ++ b.
Proof.
  revert a b; induction s as [|c s IH]; intros a b H.
  - discriminate.
  - destruct (starts_with fence (c :: s)) eqn:E.
    + rewrite (find_fence_here _ E) in H.
      injection H as <- <-.
      now apply starts_with_split in E.
    + rewrite (find_fence_next _ _ E) in H.
      destruct (find_fence s) as [[a' b']|]; [|discriminate].
      injection H as <- <-.
      simpl; f_equal; now apply IH.
Qed.

(** The fence does not occur before the place [find_fence] stops at. *)
Lemma find_fence_first (s a b : pystr) :
  find_fence s = Some (a, b) ->
  forall a1 a2, a = a1 ++ a2 -> a2 <> [] ->
    starts_with fence (a2 ++ fence ++ b) = false.
Proof.
  revert a b; induction s as [|c s IH]; intros a b H a1 a2 Ha Hne.
  - discriminate.
  - destruct (starts_with fence (c :: s)) eqn:E.
    + rewrite (find_fence_here _ E) in H.
      injection H as <- <-.
      destruct a1; destruct a2; try discriminate; congruence.
    + rewrite (find_fence_next _ _ E) in H.
      destruct (find_fence s) as [[a' b']|] eqn:F; [|discriminate].
      injection H as <- <-.
      destruct a1 as [|x a1].
      * simpl in Ha; subst a2.
        apply find_fence_some in F.
        change ((c :: a') ++ fence ++ b') with (c :: (a' ++ fence ++ b')).
        rewrite <- F; exact E.
      * injection Ha as -> ->.
        now apply (IH _ _ eq_refl a1 a2).
Qed.

(** A text in which [find_fence] finds nothing contains no fence. *)
Lemma find_fence_none_app (x s : pystr) :
  find_fence (x ++ s) = None -> find_fence s = None.
Proof.
  induction x as [|c x IH]; simpl app; intros H; [exact H|].
  destruct (starts_with fence (c :: x ++ s)) eqn:E.
  - rewrite (find_fence_here _ E) in H; discriminate.
  - rewrite (find_fence_next _ _ E) in H.
    destruct (find_fence (x ++ s)) as [[? ?]|]; [discriminate|auto].
Qed.

Lemma find_fence_none (s : pystr) :
  find_fence s = None -> forall a b, s <> a ++ fence ++ b.
Proof.
  intros H a b E; subst s.
  apply find_fence_none_app in H.
  rewrite find_fence_here in H; [discriminate|apply starts_with_app].
Qed.

Lemma lstrip_all_space (b t : pystr) :
  forallb is_space b = true -> lstrip (b ++ t) = lstrip t.
Proof.
  induction b as [|c b IH]; simpl; intros H; [reflexivity|].
  apply andb_true_iff in H as [Hc Hb].
  rewrite Hc; auto.
Qed.

Lemma rstrip_nil (b : pystr) : rstrip b = [] -> forallb is_space b = true.
Proof.
  induction b as [|c b IH]; simpl; intros H; [reflexivity|].
  destruct (rstrip b) eqn:R; [|discriminate].
  destruct (is_space c); [simpl; auto|discriminate].
Qed.

Lemma rstrip_all_space (b : pystr) : forallb is_space b = true -> rstrip b = [].
Proof.
  induction b as [|c b IH]; simpl; intros H; [reflexivity|].
  apply andb_true_iff in H as [Hc Hb].
  now rewrite (IH Hb), Hc.
Qed.

Lemma lstrip_fence (t : pystr) : lstrip (fence ++ t) = fence ++ t.
Proof. reflexivity. Qed.

(** ** The fence pattern *)

(** The tail [\s*```] of the pattern: the fence after any whitespace. *)
Lemma close_fence_spec {X : Type} (v : X) (s : pystr) :
  star_greedy is_space (fun s3 => if starts_with fence s3 then Some v else None) s
  = if starts_with fence (lstrip s) then Some v else None.
Proof.
  induction s as [|c s IH]; [reflexivity|].
  cbn [star_greedy lstrip].
  destruct (is_space c) eqn:Hc; [|reflexivity].
  rewrite (fence_not_space c s Hc), or_else_none_r.
  exact IH.
Qed.

Lemma closes_here (b t : pystr) :
  forallb is_space b = true -> starts_with fence (lstrip (b ++ fence ++ t)) = true.
Proof.
  intros H; rewrite (lstrip_all_space _ _ H), lstrip_fence.
  apply starts_with_app.
Qed.

(** When the fence follows whitespace only, it is found after exactly that
    whitespace. *)
Lemma find_fence_after_space (s : pystr) :
  starts_with fence (lstrip s) = true ->
  exists b t, find_fence s = Some (b, t) /\ forallb is_space b = true.
Proof.
  induction s as [|c s IH]; simpl lstrip; intros H.
  - discriminate.
  - destruct (is_space c) eqn:Hc.
    + destruct (IH H) as (b & t & F & Hb).
      exists (c :: b), t; split.
      * rewrite (find_fence_next _ _ (fence_not_space c s Hc)), F; reflexivity.
      * simpl; now rewrite Hc.
    + exists [], (skipn 3 (c :: s)); split; [now apply find_fence_here|reflexivity].
Qed.

Lemma firstn_prefix {A : Type} (pre u : list A) :
  firstn (length (pre ++ u) - length u) (pre ++ u) = pre.
Proof.
  rewrite length_app.
  replace (length pre + length u - length u) with (length pre + 0) by lia.
  rewrite firstn_app_2; simpl; apply app_nil_r.
Qed.

(** The lazy group [([\s\S]*?)] followed by [\s*```]: the group ends where
    the whitespace before the next fence begins. *)
Lemma lazy_group_spec (pre u : pystr) :
  @star_lazy (option pystr) any_char
    (fun s2 =>
       @star_greedy (option pystr) is_space
         (fun s3 =>
            if starts_with fence s3
            then Some (@Some pystr (firstn (length (pre ++ u) - length s2) (pre ++ u)))
            else None) s2) u
  = match find_fence u with
    | Some (b, _) => Some (Some (pre ++ rstrip b))
    | None => None
    end.
Proof.
  revert pre; induction u as [|c u IH]; intros pre.
  - reflexivity.
  - cbn [star_lazy any_char].
    rewrite close_fence_spec.
    destruct (starts_with fence (lstrip (c :: u))) eqn:Hclose.
    + destruct (find_fence_after_space _ Hclose) as (b & t & F & Hb).
      rewrite F, (rstrip_all_space _ Hb), app_nil_r, firstn_prefix.
      reflexivity.
    + cbn [or_else].
      assert (Hnf : starts_with fence (c :: u) = false).
      { destruct (is_space c) eqn:Hc; [now apply fence_not_space|].
        simpl lstrip in Hclose; now rewrite Hc in Hclose. }
      rewrite (find_fence_next _ _ Hnf).
      replace (pre ++ c :: u) with ((pre ++ [c]) ++ u)
        by (rewrite <- app_assoc; reflexivity).
      rewrite IH.
      destruct (find_fence u) as [[b t]|] eqn:F; [|reflexivity].
      rewrite <- app_assoc; simpl app.
      do 3 f_equal.
      simpl rstrip.
      destruct (rstrip b) eqn:R; [|reflexivity].
      destruct (is_space c) eqn:Hc; [|reflexivity].
      exfalso.
      apply find_fence_some in F; subst u.
      apply rstrip_nil in R.
      assert (Hall : forallb is_space (c :: b) = true) by (simpl; now rewrite Hc).
      pose proof (closes_here (c :: b) t Hall) as Hx.
      cbn [app] in Hx; rewrite Hx in Hclose; discriminate.
Qed.

Lemma strip_skip_space (c : char) (b : pystr) :
  is_space c = true -> strip (c :: b) = strip b.
Proof. intros H; unfold strip; simpl; now rewrite H. Qed.

Lemma strip_no_lead (c : char) (b : pystr) :
  is_space c = false -> strip (c :: b) = rstrip (c :: b).
Proof. intros H; unfold strip; simpl lstrip; now rewrite H. Qed.

Lemma fence_tail_spec (s : pystr) (g : option pystr) :
  bt fence_tail s g (fun _ g' => Some g')
  = match find_fence s with
    | Some (b, _) => Some (Some (strip b))
    | None => None
    end.
Proof.
  unfold fence_tail; cbn [bt].
  induction s as [|c s IH].
  - reflexivity.
  - cbn [star_greedy].
    pose proof (lazy_group_spec [] (c :: s)) as K; cbn [app] in K.
    destruct (is_space c) eqn:Hc.
    + rewrite IH, (find_fence_next _ _ (fence_not_space c s Hc)).
      destruct (find_fence s) as [[b t]|] eqn:F.
      * cbn [or_else]; now rewrite (strip_skip_space c b Hc).
      * cbn [or_else].
        refine (eq_trans K _).
        rewrite (find_fence_next _ _ (fence_not_space c s Hc)), F.
        reflexivity.
    + refine (eq_trans K _).
      destruct (find_fence (c :: s)) as [[b t]|] eqn:F; [|reflexivity].
      do 2 f_equal.
      destruct (starts_with fence (c :: s)) eqn:E.
      * rewrite (find_fence_here _ E) in F; injection F as <- <-; reflexivity.
      * rewrite (find_fence_next _ _ E) in F.
        destruct (find_fence s) as [[b' t']|]; [|discriminate].
        injection F as <- <-.
        symmetry; now apply strip_no_lead.
Qed.

Lemma find_fence_tagged (s : pystr) :
  find_fence (py "json" ++ s) =
    match find_fence s with
    | Some (b, t) => Some (py "json" ++ b, t)
    | None => None
    end.
Proof.
  change (py "json" ++ s) with (106 :: 115 :: 111 :: 110 :: s)%N.
  rewrite !find_fence_next by reflexivity.
  destruct (find_fence s) as [[b t]|]; reflexivity.
Qed.

(** The pattern after its opening fence: the optional tag, then the body up
    to the next fence. *)
Lemma fence_body_spec (s : pystr) :
  bt (RSeq (ROpt (RLit (py "json"))) fence_tail) s None (fun _ g => Some g)
  = match find_fence s with
    | Some (b, _) => Some (Some (strip (untag b)))
    | None => None
    end.
Proof.
  cbn [bt].
  rewrite (fence_tail_spec s None).
  destruct (starts_with (py "json") s) eqn:T.
  - apply starts_with_split in T.
    set (s4 := skipn (length (py "json")) s) in *.
    rewrite (fence_tail_spec s4 None).
    rewrite T, find_fence_tagged.
    destruct (find_fence s4) as [[b t]|]; reflexivity.
  - cbn [or_else].
    destruct (find_fence s) as [[b t]|] eqn:F; [|reflexivity].
    do 3 f_equal.
    unfold untag.
    destruct (starts_with (py "json") b) eqn:Tb; [|reflexivity].
    apply find_fence_some in F; subst s.
    now rewrite (starts_with_app_r _ _ (fence ++ t) Tb) in T.
Qed.

Lemma fence_at_spec (s : pystr) :
  bt fence_pattern s None (fun _ g => Some g)
  = if starts_with fence s
    then match find_fence (skipn 3 s) with
         | Some (b, _) => Some (Some (strip (untag b)))
         | None => None
         end
    else None.
Proof.
  unfold fence_pattern.
  change (RSeq (RStar is_space)
            (RSeq (RGroup (RStarLazy any_char))
               (RSeq (RStar is_space) (RLit fence)))) with fence_tail.
  cbn [bt].
  destruct (starts_with fence s); [|reflexivity].
  exact (fence_body_spec (skipn 3 s)).
Qed.

Lemma fenced_block_next (c : char) (s : pystr) :
  starts_with fence (c :: s) = false ->
  fenced_block (c :: s) = fenced_block s.
Proof.
  intros E; unfold fenced_block.
  rewrite (find_fence_next _ _ E).
  destruct (find_fence s) as [[a b]|]; reflexivity.
Qed.

(** Without a second fence after the first, no later fence has one. *)
Lemma fenced_block_unclosed (c : char) (s : pystr) :
  starts_with fence (c :: s) = true ->
  find_fence (skipn 3 (c :: s)) = None ->
  fenced_block s = None.
Proof.
  intros E N.
  apply starts_with_split in E.
  change (length fence) with 3 in E.
  remember (skipn 3 (c :: s)) as rest eqn:Hr; clear Hr.
  unfold fence in E; cbn [app] in E.
  injection E as Ec Es; subst c s.
  unfold fenced_block.
  destruct (find_fence (ch_backtick :: ch_backtick :: rest)) as [[a b]|] eqn:F;
    [|reflexivity].
  apply find_fence_some in F.
  assert (Hsuf : exists x, rest = x ++ b).
  { destruct a as [|a1 [|a2 a]]; unfold fence in F; cbn [app] in F;
      injection F; intros.
    - now exists [ch_backtick].
    - now exists [ch_backtick; ch_backtick].
    - exists (a ++ fence); subst rest; rewrite <- app_assoc; reflexivity. }
  destruct Hsuf as [x Hx].
  rewrite Hx in N.
  now rewrite (find_fence_none_app _ _ N).
Qed.

(** [re.search] with the fence pattern finds the first fenced block. *)
Lemma search_fence_spec (text : pystr) :
  re_search fence_pattern text = fenced_result text.
Proof.
  unfold fenced_result.
  induction text as [|c s IH].
  - reflexivity.
  - cbn [re_search].
    rewrite fence_at_spec.
    destruct (starts_with fence (c :: s)) eqn:E.
    + unfold fenced_block at 1.
      rewrite (find_fence_here _ E).
      destruct (find_fence (skipn 3 (c :: s))) as [[b t]|] eqn:F.
      * reflexivity.
      * cbn [or_else].
        now rewrite IH, (fenced_block_unclosed _ _ E F).
    + cbn [or_else].
      now rewrite IH, (fenced_block_next _ _ E).
Qed.

(** ** The brace pattern *)

(** [[\s\S]*}] from a given place: everything through the last closing
    brace. *)
Lemma greedy_close_spec (pre u : pystr) :
  @star_greedy (option pystr) any_char
    (fun s2 =>
       if starts_with [ch_rbrace] s2
       then Some (@Some pystr
                    (firstn (length (pre ++ u) - length (skipn 1 s2)) (pre ++ u)))
       else None) u
  = match through_last_close u with
    | Some m => Some (Some (pre ++ m))
    | None => None
    end.
Proof.
  revert pre; induction u as [|c u IH]; intros pre.
  - reflexivity.
  - cbn [star_greedy any_char through_last_close].
    replace (pre ++ c :: u) with ((pre ++ [c]) ++ u)
      by (rewrite <- app_assoc; reflexivity).
    rewrite (IH (pre ++ [c])).
    destruct (through_last_close u) as [m|].
    + cbn [or_else]; now rewrite <- app_assoc.
    + cbn [or_else starts_with skipn].
      rewrite andb_true_r, N.eqb_sym.
      destruct (c =? ch_rbrace)%N; [|reflexivity].
      now rewrite firstn_prefix.
Qed.

Lemma brace_at_spec (s : pystr) :
  bt brace_pattern s None (fun _ g => Some g)
  = match s with
    | c :: r =>
        if (c =? ch_lbrace)%N
        then match through_last_close r with
             | Some m => Some (Some (ch_lbrace :: m))
             | None => None
             end
        else None
    | [] => None
    end.
Proof.
  destruct s as [|c r]; [reflexivity|].
  unfold brace_pattern; cbn [bt starts_with length skipn].
  rewrite andb_true_r, N.eqb_sym.
  destruct (N.eqb_spec c ch_lbrace) as [->|]; [|reflexivity].
  exact (greedy_close_spec [ch_lbrace] r).
Qed.

Lemma through_last_close_none_app (x r : pystr) :
  through_last_close (x ++ r) = None -> through_last_close r = None.
Proof.
  induction x as [|c x IH]; simpl; intros H; [exact H|].
  destruct (through_last_close (x ++ r)); [discriminate|auto].
Qed.

Lemma after_first_open_suffix (s r : pystr) :
  after_first_open s = Some r -> exists x, s = x ++ r.
Proof.
  induction s as [|c s IH]; simpl; intros H; [discriminate|].
  destruct (c =? ch_lbrace)%N.
  - injection H as <-; now exists [c].
  - destruct (IH H) as [x ->]; now exists (c :: x).
Qed.

Lemma brace_span_unclosed (s : pystr) :
  through_last_close s = None -> brace_span s = None.
Proof.
  intros N; unfold brace_span.
  destruct (after_first_open s) as [r|] eqn:A; [|reflexivity].
  destruct (after_first_open_suffix _ _ A) as [x ->].
  now rewrite (through_last_close_none_app _ _ N).
Qed.

(** [re.search] with the brace pattern finds the span from the first
    opening brace through the last closing brace. *)
Lemma search_brace_spec (text : pystr) :
  re_search brace_pattern text =
    match brace_span text with
    | Some j => Some (Some j)
    | None => None
    end.
Proof.
  induction text as [|c s IH]; [reflexivity|].
  cbn [re_search]; rewrite brace_at_spec, IH.
  unfold brace_span at 2; cbn [after_first_open].
  destruct (c =? ch_lbrace)%N.
  - destruct (through_last_close s) as [m|] eqn:T; [reflexivity|].
    cbn [or_else]; now rewrite (brace_span_unclosed _ T).
  - reflexivity.
Qed.

(** C1. The extractor applies the specified priority order on every text:
    the inner content of the first fenced block, without its optional
    json tag and stripped of surrounding whitespace; otherwise the span
    from the first opening brace through the last closing brace; otherwise
    the text itself.  The three examples of the specification evaluate as
    stated. *)
Theorem extract_json_priority :
  (forall text, _extract_json text = extract_json_spec text)
  /\ _extract_json example_fenced = example_json
  /\ _extract_json example_braces = example_json
  /\ _extract_json (py "no json here") = py "no json here".
Proof.
  split; [|repeat split; vm_compute; reflexivity].
  intros text; unfold _extract_json, extract_json_spec.
  rewrite search_fence_spec, search_brace_spec.
  unfold fenced_result.
  destruct (fenced_block text); [reflexivity|].
  destruct (brace_span text); reflexivity.
Qed.

(** ** Cleaning the text of a page *)

Lemma slice_to_length {A : Type} (n : Z) (l : list A) :
  (0 <= n)%Z -> (Z.of_nat (length (slice_to n l)) <= n)%Z.
Proof.
  intros Hn; unfold slice_to.
  destruct (n <? 0)%Z eqn:E; [apply Z.ltb_lt in E; lia|].
  pose proof (firstn_le_length (Z.to_nat n) l); lia.
Qed.

Lemma firstn_incl {A : Type} (n : nat) (l : list A) : incl (firstn n l) l.
Proof.
  intros x Hx; rewrite <- (firstn_skipn n l); apply in_or_app; now left.
Qed.

Lemma slice_to_incl {A : Type} (n : Z) (l : list A) : incl (slice_to n l) l.
Proof. unfold slice_to; destruct (n <? 0)%Z; apply firstn_incl. Qed.

Lemma lstrip_incl (s : pystr) : incl (lstrip s) s.
Proof.
  induction s as [|c s IH]; simpl; [apply incl_refl|].
  destruct (is_space c); [now apply incl_tl|apply incl_refl].
Qed.

Lemma rstrip_incl (s : pystr) : incl (rstrip s) s.
Proof.
  induction s as [|c s IH]; simpl; [apply incl_refl|].
  destruct (rstrip s) as [|d r].
  - destruct (is_space c); [apply incl_nil_l|].
    intros x [->|[]]; now left.
  - intros x [->|Hx]; [now left|right; now apply IH].
Qed.

Lemma strip_incl (s : pystr) : incl (strip s) s.
Proof.
  unfold strip; eapply incl_tran; [apply rstrip_incl|apply lstrip_incl].
Qed.

Lemma splitlines_incl (s : pystr) :
  Forall (fun line => incl line s) (splitlines s).
Proof.
  assert (W : forall (c : char) (s' : pystr) (ls : list pystr),
             Forall (fun l => incl l s') ls ->
             Forall (fun l => incl l (c :: s')) ls).
  { intros c s' ls H; eapply Forall_impl; [|exact H].
    intros l Hl; now apply incl_tl. }
  remember (length s) as k eqn:Hk.
  assert (Hle : length s <= k) by lia; clear Hk.
  revert s Hle; induction k as [|k IH]; intros s Hle;
    [destruct s; [constructor|simpl in Hle; lia]|].
  destruct s as [|c s]; [constructor|].
  cbn [splitlines].
  destruct (is_linebreak c).
  - constructor; [apply incl_nil_l|].
    destruct s as [|d s']; [constructor|].
    destruct ((c =? ch_cr) && (d =? ch_lf))%N.
    + apply W, W, IH; simpl in *; lia.
    + apply W, IH; simpl in *; lia.
  - assert (Hs : Forall (fun l => incl l s) (splitlines s)) by (apply IH; simpl in *; lia).
    destruct (splitlines s) as [|l ls].
    + constructor; [|constructor]. intros x [->|[]]; now left.
    + inversion Hs as [|? ? Hl Hls]; subst.
      constructor; [|now apply W].
      intros x [->|Hx]; [now left|right; now apply Hl].
Qed.

Lemma split_2sp_incl (s : pystr) :
  Forall (fun piece => incl piece s) (split_2sp s).
Proof.
  assert (W : forall (c : char) (s' : pystr) (ls : list pystr),
             Forall (fun l => incl l s') ls ->
             Forall (fun l => incl l (c :: s')) ls).
  { intros c s' ls H; eapply Forall_impl; [|exact H].
    intros l Hl; now apply incl_tl. }
  remember (length s) as k eqn:Hk.
  assert (Hle : length s <= k) by lia; clear Hk.
  revert s Hle; induction k as [|k IH]; intros s Hle;
    [destruct s; [repeat constructor; apply incl_refl|simpl in Hle; lia]|].
  destruct s as [|c s]; [repeat constructor; apply incl_refl|].
  cbn [split_2sp].
  assert (Hkeep : Forall (fun l => incl l (c :: s))
                    match split_2sp s with
                    | l :: ls => (c :: l) :: ls
                    | [] => [[c]]
                    end).
  { assert (Hs : Forall (fun l => incl l s) (split_2sp s)) by (apply IH; simpl in *; lia).
    destruct (split_2sp s) as [|l ls].
    - constructor; [|constructor]. intros x [->|[]]; now left.
    - inversion Hs as [|? ? Hl Hls]; subst.
      constructor; [|now apply W].
      intros x [->|Hx]; [now left|right; now apply Hl]. }
  destruct s as [|d s']; [exact Hkeep|].
  destruct ((c =? ch_space) && (d =? ch_space))%N; [|exact Hkeep].
  constructor; [apply incl_nil_l|].
  apply W, W, IH; simpl in *; lia.
Qed.

Lemma join_chars (sep : pystr) (parts : list pystr) (c : char) :
  In c (join sep parts) -> In c sep \/ exists p, In p parts /\ In c p.
Proof.
  induction parts as [|p rest IH]; simpl; [intros []|].
  destruct rest as [|q rest].
  - intros H; right; exists p; auto.
  - intros H.
    apply in_app_or in H as [H|H]; [right; exists p; auto|].
    apply in_app_or in H as [H|H]; [now left|].
    destruct (IH H) as [Hs|(p' & Hp' & Hc)]; [now left|].
    right; exists p'; split; [now right|exact Hc].
Qed.

(** Every character of the cleaned text is the line feed that joins the
    chunks or a character of the text of the document. *)
Lemma clean_text_chars (doc : soup) (c : char) :
  In c (clean_text doc) -> c = ch_lf \/ In c (get_text doc).
Proof.
  unfold clean_text; intros H.
  apply slice_to_incl in H.
  apply join_chars in H as [[<-|[]]|(p & Hp & Hc)]; [now left|right].
  apply filter_In in Hp as [Hp _].
  apply in_flat_map in Hp as (line & Hline & Hp).
  apply in_map_iff in Hp as (piece & <- & Hpiece).
  apply in_map_iff in Hline as (raw & <- & Hraw).
  pose proof (splitlines_incl (get_text doc)) as L.
  rewrite Forall_forall in L.
  pose proof (split_2sp_incl (strip raw)) as P.
  rewrite Forall_forall in P.
  apply (L raw Hraw), strip_incl, (P piece Hpiece), strip_incl, Hc.
Qed.

(** ** The document without its blocked elements *)

Lemma node_induction (P : node -> Prop) :
  (forall counted text, P (NString counted text)) ->
  (forall i name children, Forall P children -> P (NTag i name children)) ->
  forall n, P n.
Proof.
  intros Hs Ht.
  fix IH 1.
  intros [counted text|i name children]; [apply Hs|apply Ht].
  induction children as [|n rest IHrest]; constructor; [apply IH|exact IHrest].
Qed.

Lemma flat_map_ext_forall {A B : Type} (f g : A -> list B) (l : list A) :
  Forall (fun x => f x = g x) l -> flat_map f l = flat_map g l.
Proof. induction 1; simpl; congruence. Qed.

Lemma flat_map_flat_map {A B C : Type} (f : B -> list C) (g : A -> list B)
    (l : list A) :
  flat_map f (flat_map g l) = flat_map (fun x => flat_map f (g x)) l.
Proof.
  induction l as [|x l IH]; simpl; [reflexivity|].
  now rewrite flat_map_app, IH.
Qed.

Lemma extract_then_ids (i : nat) (ids : list nat) (n : node) :
  flat_map (extract_ids_node ids) (extract_node i n)
  = extract_ids_node (i :: ids) n.
Proof.
  induction n as [counted text|j name children IH] using node_induction.
  - reflexivity.
  - cbn [extract_node extract_ids_node id_in existsb].
    destruct (Nat.eqb j i) eqn:E; [reflexivity|].
    cbn [flat_map extract_ids_node orb app].
    fold (id_in j ids).
    destruct (id_in j ids); [reflexivity|].
    rewrite app_nil_r, flat_map_flat_map.
    do 2 f_equal.
    now apply flat_map_ext_forall.
Qed.

Lemma extract_ids_nil (n : node) : extract_ids_node [] n = [n].
Proof.
  induction n as [counted text|j name children IH] using node_induction.
  - reflexivity.
  - cbn [extract_ids_node id_in existsb].
    do 2 f_equal.
    induction IH as [|x l Hx _ IHl]; simpl; [reflexivity|].
    now rewrite Hx, IHl.
Qed.

(** The loop of extractions removes every tag whose identity is listed. *)
Lemma extract_loop (ids : list nat) (doc : soup) :
  fold_left (fun d i => extract i d) ids doc
  = flat_map (extract_ids_node ids) doc.
Proof.
  revert doc; induction ids as [|i ids IH]; intros doc; simpl.
  - induction doc as [|n doc IHd]; simpl; [reflexivity|].
    now rewrite extract_ids_nil, <- IHd.
  - rewrite IH; unfold extract.
    rewrite flat_map_flat_map.
    apply flat_map_ext_forall, Forall_forall.
    intros n _; apply extract_then_ids.
Qed.

Lemma id_in_true (i : nat) (ids : list nat) : In i ids -> id_in i ids = true.
Proof.
  intros H; apply existsb_exists; exists i; split; [exact H|apply Nat.eqb_refl].
Qed.

(** What is left once the tags found by name are removed stands outside
    every element of those names. *)
Lemma kept_strings_visible (names : list pystr) (ids : list nat) (n : node) :
  incl (find_all_node names n) ids ->
  incl (flat_map (visible_strings_node []) (extract_ids_node ids n))
       (visible_strings_node names n).
Proof.
  induction n as [counted text|j name children IH] using node_induction;
    intros Hids.
  - destruct counted; simpl; apply incl_refl.
  - cbn [find_all_node] in Hids.
    cbn [extract_ids_node visible_strings_node].
    destruct (name_in name names) eqn:Hn.
    + rewrite id_in_true; [apply incl_nil_l|].
      apply Hids; now left.
    + destruct (id_in j ids); [apply incl_nil_l|].
      cbn [flat_map visible_strings_node name_in existsb].
      rewrite app_nil_r.
      simpl app in Hids.
      clear Hn.
      induction IH as [|x l Hx _ IHl]; [apply incl_refl|].
      cbn [flat_map] in *.
      rewrite flat_map_app.
      apply incl_app_app.
      * apply Hx; intros y Hy; apply Hids, in_or_app; now left.
      * apply IHl; intros y Hy; apply Hids, in_or_app; now right.
Qed.

(** No tag of those names is left. *)
Lemma no_named_tag_left (names : list pystr) (ids : list nat) (n : node) :
  incl (find_all_node names n) ids ->
  flat_map (find_all_node names) (extract_ids_node ids n) = [].
Proof.
  induction n as [counted text|j name children IH] using node_induction;
    intros Hids.
  - reflexivity.
  - cbn [find_all_node] in Hids.
    cbn [extract_ids_node].
    destruct (id_in j ids) eqn:Hj; [reflexivity|].
    cbn [flat_map find_all_node].
    destruct (name_in name names) eqn:Hn.
    + rewrite id_in_true in Hj; [discriminate|].
      apply Hids; now left.
    + cbn [app] in *; rewrite app_nil_r, flat_map_flat_map.
      induction IH as [|x l Hx _ IHl]; [reflexivity|].
      cbn [flat_map] in *.
      rewrite Hx, IHl; [reflexivity| |];
        intros y Hy; apply Hids, in_or_app; [now right|now left].
Qed.

Lemma remove_blocked_clean (doc : soup) :
  find_all blocked_tags (remove_blocked doc) = [].
Proof.
  unfold remove_blocked, find_all.
  rewrite extract_loop, flat_map_flat_map.
  generalize (incl_refl (flat_map (find_all_node blocked_tags) doc)).
  generalize (flat_map (find_all_node blocked_tags) doc) at 2 3 as ids.
  intros ids.
  induction doc as [|n doc IH]; intros Hids; [reflexivity|].
  cbn [flat_map] in *.
  rewrite no_named_tag_left, IH; [reflexivity| |];
    intros y Hy; apply Hids, in_or_app; [now right|now left].
Qed.

Lemma remove_blocked_visible (doc : soup) :
  incl (visible_strings [] (remove_blocked doc))
       (visible_strings blocked_tags doc).
Proof.
  unfold remove_blocked, visible_strings.
  rewrite extract_loop, flat_map_flat_map.
  unfold find_all.
  generalize (incl_refl (flat_map (find_all_node blocked_tags) doc)).
  generalize (flat_map (find_all_node blocked_tags) doc) at 2 3 as ids.
  intros ids.
  induction doc as [|n doc IH]; intros Hids; [apply incl_refl|].
  cbn [flat_map] in *.
  apply incl_app_app.
  - apply kept_strings_visible; intros y Hy; apply Hids, in_or_app; now left.
  - apply IH; intros y Hy; apply Hids, in_or_app; now right.
Qed.

Lemma get_text_chars_node (n : node) (c : char) :
  In c (get_text_node n) ->
  exists s, In s (visible_strings_node [] n) /\ In c s.
Proof.
  induction n as [counted text|j name children IH] using node_induction.
  - destruct counted; simpl; [|intros []].
    intros H; exists text; auto.
  - cbn [get_text_node visible_strings_node name_in existsb].
    intros H.
    apply in_flat_map in H as (x & Hx & Hc).
    rewrite Forall_forall in IH.
    destruct (IH x Hx Hc) as (s & Hs & Hcs).
    exists s; split; [|exact Hcs].
    apply in_flat_map; now exists x.
Qed.

Lemma get_text_chars (doc : soup) (c : char) :
  In c (get_text doc) -> exists s, In s (visible_strings [] doc) /\ In c s.
Proof.
  unfold get_text, visible_strings; intros H.
  apply in_flat_map in H as (n & Hn & Hc).
  destruct (get_text_chars_node n c Hc) as (s & Hs & Hcs).
  exists s; split; [|exact Hcs].
  apply in_flat_map; now exists n.
Qed.

(** ** The pipeline *)

Section SearchAndFetch.

Context (S : Services).

(** C8. For every HTML text the cleaned text has at most 8000 characters,
    and so has whatever [fetch_article_content] returns, which never
    raises. *)
Theorem html_text_at_most_8000 :
  forall html : pystr,
    (Z.of_nat (length (html_text S html)) <= 8000)%Z
    /\ forall (url : pyval) (m : machine (World S)),
         exists text m',
           fetch_article_content S url m = (Ok text, m')
           /\ (Z.of_nat (length text) <= 8000)%Z.
Proof.
  assert (B : forall html, (Z.of_nat (length (html_text S html)) <= 8000)%Z).
  { intros html; unfold html_text, clean_text.
    apply slice_to_length; lia. }
  intros html; split; [apply B|].
  intros url m; unfold fetch_article_content; run_monad.
  destruct (http_get S url (world m)) as [[page|e] w].
  - eexists _, _; split; [reflexivity|apply B].
  - eexists _, _; split; [reflexivity|simpl; lia].
Qed.

(** C9. Once the script, style, nav, footer and header elements are
    extracted no such element is left in the document, and every string the
    text is read from stood outside all of them in the parsed page: the
    subtrees are gone, not the tags alone.  Hence a character other than
    the joining line feed that occurs in no string outside those elements
    does not occur in the cleaned text, whatever the elements contain. *)
Theorem html_text_drops_blocked :
  forall html : pystr,
    find_all blocked_tags (remove_blocked (bs_parse S html)) = []
    /\ incl (visible_strings [] (remove_blocked (bs_parse S html)))
            (visible_strings blocked_tags (bs_parse S html))
    /\ forall c : char,
         c <> ch_lf ->
         (forall s, In s (visible_strings blocked_tags (bs_parse S html)) ->
                    ~ In c s) ->
         ~ In c (html_text S html).
Proof.
  intros html.
  split; [apply remove_blocked_clean|].
  split; [apply remove_blocked_visible|].
  intros c Hlf Hout Hin.
  unfold html_text in Hin.
  apply clean_text_chars in Hin as [->|Hin]; [now apply Hlf|].
  apply get_text_chars in Hin as (s & Hs & Hc).
  apply remove_blocked_visible in Hs.
  exact (Hout s Hs Hc).
Qed.

(** *** The search client *)

Lemma format_results_spec (items formatted out : list pyval) :
  format_results S items formatted = Ok out ->
  exists ds, items = map VDict ds /\ out = formatted ++ map search_record ds.
Proof.
  revert formatted; induction items as [|v items IH]; intros formatted H.
  - injection H as <-; exists []; now rewrite app_nil_r.
  - destruct v; try discriminate H.
    cbn [format_results] in H.
    destruct (IH _ H) as (ds & -> & ->).
    exists (entries :: ds); split; [reflexivity|].
    now rewrite <- app_assoc.
Qed.

Lemma format_no_str (n : Z) (s : pystr) :
  match format_results S (map (fun c => VStr [c]) (slice_to n s)) [] with
  | Ok out => out = []
  | Raise _ => True
  end.
Proof. destruct (slice_to n s); simpl; auto. Qed.

Lemma search_web_outcome (query : pystr) (n : Z) (m : machine (World S)) :
  search_web S query n m =
    (Ok (fst (search_outcome S query n m)), snd (search_outcome S query n m)).
Proof.
  unfold search_web, search_outcome; run_monad.
  destruct (serp_run S query (world m)) as [[raw|e] w1]; cbn [world trace session];
    [|reflexivity].
  destruct (serp_get_dict S query n w1) as [[payload|e] w2]; [|reflexivity].
  unfold dict_has, getitem, fail.
  destruct (dict_get organic_results payload) as [v|] eqn:G.
  - destruct (nonempty payload) eqn:Hne.
    + cbn [negb orb].
      destruct v; cbn [slice_items]; try reflexivity.
      * pose proof (format_no_str n s) as F.
        destruct (format_results S (map (fun c => VStr [c]) (slice_to n s)) []);
          [now subst|reflexivity].
      * destruct (format_results S (slice_to n items) []); reflexivity.
    + destruct payload; [discriminate G|discriminate Hne].
  - rewrite orb_true_r; reflexivity.
Qed.

Lemma search_outcome_window (query : pystr) (n : Z) (m : machine (World S)) :
  fst (search_outcome S query n m) = []
  \/ exists raw w1 payload w2 items ds,
       serp_run S query (world m) = (Ok raw, w1)
       /\ serp_get_dict S query n w1 = (Ok payload, w2)
       /\ dict_get organic_results payload = Some (VList items)
       /\ slice_to n items = map VDict ds
       /\ fst (search_outcome S query n m) = map search_record ds.
Proof.
  unfold search_outcome.
  destruct (serp_run S query (world m)) as [[raw|e] w1] eqn:E1; [|now left].
  destruct (serp_get_dict S query n w1) as [[payload|e] w2] eqn:E2; [|now left].
  destruct (dict_get organic_results payload) as [[| | | | |items|]|] eqn:G;
    try (now left).
  destruct (format_results S (slice_to n items) []) as [out|e] eqn:F; [|now left].
  destruct (format_results_spec _ _ _ F) as (ds & Hds & ->).
  right; exists raw, w1, payload, w2, items, ds; repeat split; auto.
Qed.

(** C5. For a result count between 1 and 10 the search client returns,
    without raising, at most that many results; it returns none when a
    call of the provider raises and when the payload has no organic
    results, as an error payload has none. *)
Theorem search_web_bounded :
  forall (query : pystr) (n : Z) (m : machine (World S)),
    (1 <= n <= 10)%Z ->
    exists results m',
      search_web S query n m = (Ok results, m')
      /\ (Z.of_nat (length results) <= n)%Z
      /\ (forall e w, serp_run S query (world m) = (Raise e, w) -> results = [])
      /\ (forall raw w e w',
            serp_run S query (world m) = (Ok raw, w) ->
            serp_get_dict S query n w = (Raise e, w') -> results = [])
      /\ (forall raw w payload w',
            serp_run S query (world m) = (Ok raw, w) ->
            serp_get_dict S query n w = (Ok payload, w') ->
            dict_has organic_results payload = false -> results = []).
Proof.
  intros query n m Hn.
  exists (fst (search_outcome S query n m)), (snd (search_outcome S query n m)).
  split; [apply search_web_outcome|].
  split.
  - destruct (search_outcome_window query n m)
      as [->|(raw & w1 & payload & w2 & items & ds & _ & _ & _ & Hw & ->)];
      [simpl; lia|].
    rewrite length_map, <- (length_map VDict), <- Hw.
    apply slice_to_length; lia.
  - unfold search_outcome; repeat split.
    + intros e w H; now rewrite H.
    + intros raw w e w' H1 H2; now rewrite H1, H2.
    + intros raw w payload w' H1 H2 H3; rewrite H1, H2.
      unfold dict_has in H3.
      destruct (dict_get organic_results payload); [discriminate|reflexivity].
Qed.

(** C7, as the code has it.  Every element the search client returns is a
    record with exactly the fields title, snippet and link, in this order,
    made from the provider's organic result at the same place: each field
    holds the provider's value when the provider sent the field, whatever
    its type, and the empty string when it did not. *)
Theorem search_web_records :
  forall (query : pystr) (n : Z) (m : machine (World S))
         (results : list pyval) (m' : machine (World S)),
    search_web S query n m = (Ok results, m') ->
    results = []
    \/ exists raw w1 payload w2 items ds,
         serp_run S query (world m) = (Ok raw, w1)
         /\ serp_get_dict S query n w1 = (Ok payload, w2)
         /\ dict_get organic_results payload = Some (VList items)
         /\ slice_to n items = map VDict ds
         /\ results =
              map (fun d =>
                     let field k :=
                       match dict_get k d with Some v => v | None => VStr [] end in
                     VDict [ (py "title", field (py "title"));
                             (py "snippet", field (py "snippet"));
                             (py "link", field (py "link")) ]) ds.
Proof.
  intros query n m results m' H.
  rewrite search_web_outcome in H; injection H as <- _.
  exact (search_outcome_window query n m).
Qed.

End SearchAndFetch.

Section TreeBuilder.

Context (S : Services).

(** *** The tree builder *)

(** C3. [generate_knowledge_tree] never raises.  When rendering the prompt,
    the call of the model, the extraction (a content that is no string) or
    the decoding fails, it returns the fallback tree: the given topic, one
    subtopic named "Error generating knowledge tree" with one key point
    "Error" whose explanation ends with the message of the failure; this
    tree has the declared shape. *)
Theorem generate_knowledge_tree_fallback :
  forall (topic content : pystr) (m : machine (World S)),
    (exists tree m', generate_knowledge_tree S topic content m = (Ok tree, m'))
    /\ (forall e,
          tree_prompt S topic content = Raise e ->
          fst (generate_knowledge_tree S topic content m) = Ok (fallback_tree topic e))
    /\ (forall prompt e w,
          tree_prompt S topic content = Ok prompt ->
          llm_invoke S TreeModel prompt (world m) = (Raise e, w) ->
          fst (generate_knowledge_tree S topic content m) = Ok (fallback_tree topic e))
    /\ (forall prompt v w,
          tree_prompt S topic content = Ok prompt ->
          llm_invoke S TreeModel prompt (world m) = (Ok v, w) ->
          is_str v = false ->
          fst (generate_knowledge_tree S topic content m)
          = Ok (fallback_tree topic (fault_text S (PatternOnNonStr v))))
    /\ (forall prompt text w e,
          tree_prompt S topic content = Ok prompt ->
          llm_invoke S TreeModel prompt (world m) = (Ok (VStr text), w) ->
          json_loads S (_extract_json text) = Raise e ->
          fst (generate_knowledge_tree S topic content m) = Ok (fallback_tree topic e))
    /\ (forall e,
          valid_knowledge_tree (fallback_tree topic e) = true
          /\ fallback_tree topic e =
             VDict [ (py "topic", VStr topic);
                     (py "subtopics",
                      VList [ VDict [ (py "name", VStr (py "Error generating knowledge tree"));
                                      (py "key_points",
                                       VList [ VDict [ (py "point", VStr (py "Error"));
                                                       (py "explanation",
                                                        VStr (py "Failed to generate knowledge tree: " ++ e)) ] ]) ] ]) ]).
Proof.
  intros topic content m.
  unfold generate_knowledge_tree; run_monad.
  destruct (tree_prompt S topic content) as [prompt|e0] eqn:P.
  - destruct (llm_invoke S TreeModel prompt (world m)) as [[v|e1] w] eqn:L.
    + destruct v; cbn [extract_json_of];
        try (repeat split;
             [eexists _, _; reflexivity
             |intros; discriminate
             |intros ? ? ? Hp Hl; injection Hp as <-; rewrite L in Hl; discriminate
             |intros ? ? ? Hp Hl _; injection Hp as <-; rewrite L in Hl;
              injection Hl as <- _; reflexivity
             |intros ? ? ? ? Hp Hl; injection Hp as <-; rewrite L in Hl; discriminate]).
      destruct (json_loads S (_extract_json s)) as [tree|e2] eqn:J;
        (repeat split;
         [eexists _, _; reflexivity
         |intros; discriminate
         |intros ? ? ? Hp Hl; injection Hp as <-; rewrite L in Hl; discriminate
         |intros ? ? ? Hp Hl Hs; injection Hp as <-; rewrite L in Hl;
          injection Hl as <- _; discriminate
         |intros ? ? ? ? Hp Hl Hj; injection Hp as <-; rewrite L in Hl;
          injection Hl as <- _; rewrite J in Hj; try discriminate;
          injection Hj as <-; reflexivity]).
    + repeat split;
        [eexists _, _; reflexivity
        |intros; discriminate
        |intros ? ? ? Hp Hl; injection Hp as <-; rewrite L in Hl;
         injection Hl as <- _; reflexivity
        |intros ? ? ? Hp Hl; injection Hp as <-; rewrite L in Hl; discriminate
        |intros ? ? ? ? Hp Hl; injection Hp as <-; rewrite L in Hl; discriminate].
  - repeat split;
      [eexists _, _; reflexivity
      |intros ? He; injection He as <-; reflexivity
      |intros; discriminate
      |intros; discriminate
      |intros; discriminate].
Qed.

(** C6. [expand_subtopic] never raises.  When rendering the prompt, the call
    of the model, the extraction or the decoding fails, it returns the given
    subtopic name, the overview "Failed to expand subtopic: " followed by
    the message, and no aspects. *)
Theorem expand_subtopic_fallback :
  forall (topic subtopic content : pystr) (m : machine (World S)),
    (exists expanded m',
        expand_subtopic S topic subtopic content m = (Ok expanded, m'))
    /\ (forall e,
          expand_prompt S topic subtopic content = Raise e ->
          fst (expand_subtopic S topic subtopic content m)
          = Ok (fallback_expansion subtopic e))
    /\ (forall prompt e w,
          expand_prompt S topic subtopic content = Ok prompt ->
          llm_invoke S TreeModel prompt (world m) = (Raise e, w) ->
          fst (expand_subtopic S topic subtopic content m)
          = Ok (fallback_expansion subtopic e))
    /\ (forall prompt v w,
          expand_prompt S topic subtopic content = Ok prompt ->
          llm_invoke S TreeModel prompt (world m) = (Ok v, w) ->
          is_str v = false ->
          fst (expand_subtopic S topic subtopic content m)
          = Ok (fallback_expansion subtopic (fault_text S (PatternOnNonStr v))))
    /\ (forall prompt text w e,
          expand_prompt S topic subtopic content = Ok prompt ->
          llm_invoke S TreeModel prompt (world m) = (Ok (VStr text), w) ->
          json_loads S (_extract_json text) = Raise e ->
          fst (expand_subtopic S topic subtopic content m)
          = Ok (fallback_expansion subtopic e))
    /\ (forall e,
          fallback_expansion subtopic e =
          VDict [ (py "subtopic", VStr subtopic);
                  (py "overview", VStr (py "Failed to expand subtopic: " ++ e));
                  (py "aspects", VList []) ]).
Proof.
  intros topic subtopic content m.
  unfold expand_subtopic; run_monad.
  destruct (expand_prompt S topic subtopic content) as [prompt|e0] eqn:P.
  - destruct (llm_invoke S TreeModel prompt (world m)) as [[v|e1] w] eqn:L.
    + destruct v; cbn [extract_json_of];
        try (repeat split;
             [eexists _, _; reflexivity
             |intros; discriminate
             |intros ? ? ? Hp Hl; injection Hp as <-; rewrite L in Hl; discriminate
             |intros ? ? ? Hp Hl _; injection Hp as <-; rewrite L in Hl;
              injection Hl as <- _; reflexivity
             |intros ? ? ? ? Hp Hl; injection Hp as <-; rewrite L in Hl; discriminate]).
      destruct (json_loads S (_extract_json s)) as [tree|e2] eqn:J;
        (repeat split;
         [eexists _, _; reflexivity
         |intros; discriminate
         |intros ? ? ? Hp Hl; injection Hp as <-; rewrite L in Hl; discriminate
         |intros ? ? ? Hp Hl Hs; injection Hp as <-; rewrite L in Hl;
          injection Hl as <- _; discriminate
         |intros ? ? ? ? Hp Hl Hj; injection Hp as <-; rewrite L in Hl;
          injection Hl as <- _; rewrite J in Hj; try discriminate;
          injection Hj as <-; reflexivity]).
    + repeat split;
        [eexists _, _; reflexivity
        |intros; discriminate
        |intros ? ? ? Hp Hl; injection Hp as <-; rewrite L in Hl;
         injection Hl as <- _; reflexivity
        |intros ? ? ? Hp Hl; injection Hp as <-; rewrite L in Hl; discriminate
        |intros ? ? ? ? Hp Hl; injection Hp as <-; rewrite L in Hl; discriminate].
  - repeat split;
      [eexists _, _; reflexivity
      |intros ? He; injection He as <-; reflexivity
      |intros; discriminate
      |intros; discriminate
      |intros; discriminate].
Qed.

End TreeBuilder.

Section FetchLoop.

Context (S : Services).

(** *** Fetching the results *)

Lemma fetch_outcome (url : pyval) (m : machine (World S)) :
  exists text w,
    fetch_article_content S url m
    = (Ok text, {| world := w; trace := trace m ++ [EvHttpGet url];
                   session := session m |}).
Proof.
  unfold fetch_article_content; run_monad.
  destruct (http_get S url (world m)) as [[page|e] w]; eexists _, _; reflexivity.
Qed.

Lemma record_link (d : pydict) :
  getitem S (search_record d) (py "link") = Ok (record_field (py "link") (search_record d)).
Proof. reflexivity. Qed.

Lemma record_title (d : pydict) :
  getitem S (search_record d) (py "title") = Ok (record_field (py "title") (search_record d)).
Proof. reflexivity. Qed.

(** The loop with its accumulator is the filter over the fetched pages. *)
Lemma collect_content_spec (results : list pyval) :
  Forall is_search_record results ->
  forall (acc : list source_document) (m : machine (World S)),
    collect_content S results acc m
    = (Ok (acc ++ filter has_content (fst (fetch_each S results m))),
       snd (fetch_each S results m)).
Proof.
  induction 1 as [|r rest [d ->] _ IH]; intros acc m.
  - cbn; now rewrite app_nil_r.
  - cbn [collect_content fetch_each].
    unfold bind at 1, lift at 1; rewrite (record_link d).
    unfold bind at 1.
    destruct (fetch_outcome (record_field (py "link") (search_record d)) m)
      as (text & w & ->).
    set (m1 := {| world := w;
                  trace := trace m ++ [EvHttpGet (record_field (py "link") (search_record d))];
                  session := session m |}).
    destruct (fetch_each S rest m1) as [docs m2] eqn:F.
    cbn [fst snd filter text_of]; unfold has_content at 1; cbn [doc_content].
    destruct (nonempty text).
    + unfold bind at 1, lift at 1; rewrite (record_title d); cbv beta iota.
      unfold bind at 1, lift at 1.
      rewrite IH, F; cbn [fst snd].
      now rewrite <- app_assoc.
    + now rewrite IH, F.
Qed.

Lemma fetch_each_trace (results : list pyval) (m : machine (World S)) :
  trace (snd (fetch_each S results m))
  = trace m ++ map (fun r => EvHttpGet (record_field (py "link") r)) results
  /\ session (snd (fetch_each S results m)) = session m.
Proof.
  revert m; induction results as [|r rest IH]; intros m.
  - cbn; now rewrite app_nil_r.
  - cbn [fetch_each].
    destruct (fetch_outcome (record_field (py "link") r) m) as (text & w & ->).
    set (m1 := {| world := w; trace := _; session := session m |}).
    destruct (IH m1) as [Ht Hs].
    destruct (fetch_each S rest m1) as [docs m2].
    cbn [snd] in *; rewrite Ht, Hs; subst m1; cbn [trace session].
    now rewrite <- app_assoc.
Qed.

Lemma fetch_each_length (results : list pyval) (m : machine (World S)) :
  length (fst (fetch_each S results m)) = length results.
Proof.
  revert m; induction results as [|r rest IH]; intros m; [reflexivity|].
  cbn [fetch_each].
  destruct (fetch_article_content S (record_field (py "link") r) m) as [c m1].
  specialize (IH m1).
  destruct (fetch_each S rest m1) as [docs m2].
  cbn [fst length] in *; now rewrite IH.
Qed.

Lemma search_outcome_records (query : pystr) (n : Z) (m : machine (World S)) :
  Forall is_search_record (fst (search_outcome S query n m)).
Proof.
  destruct (search_outcome_window S query n m)
    as [->|(_ & _ & _ & _ & _ & ds & _ & _ & _ & _ & ->)]; [constructor|].
  apply Forall_forall; intros r Hr.
  apply in_map_iff in Hr as (d & <- & _); now exists d.
Qed.

Lemma search_outcome_trace (query : pystr) (n : Z) (m : machine (World S)) :
  exists evs,
    trace (snd (search_outcome S query n m)) = trace m ++ evs
    /\ filter is_fetch evs = [] /\ filter is_llm evs = []
    /\ filter is_st_error evs = []
    /\ session (snd (search_outcome S query n m)) = session m.
Proof.
  unfold search_outcome.
  destruct (serp_run S query (world m)) as [[raw|e] w1].
  2: { exists [EvSerpRun query]; repeat split. }
  destruct (serp_get_dict S query n w1) as [[payload|e] w2].
  all: exists [EvSerpRun query; EvSerpSearch query n].
  all: match goal with
       | |- context [snd ?p] =>
           assert (Hm : snd p = {| world := w2;
                                   trace := (trace m ++ [EvSerpRun query])
                                            ++ [EvSerpSearch query n];
                                   session := session m |})
       end.
  2, 4: rewrite Hm; cbn [trace session]; rewrite <- app_assoc; repeat split.
  2: reflexivity.
  destruct (dict_get organic_results payload) as [[| | | | |items|]|];
    try reflexivity.
  destruct (format_results S (slice_to n items) []); reflexivity.
Qed.

Lemma slice_to_forall {A : Type} (P : A -> Prop) (n : Z) (l : list A) :
  Forall P l -> Forall P (slice_to n l).
Proof.
  intros H; apply Forall_forall; intros x Hx.
  rewrite Forall_forall in H; apply H; now apply slice_to_incl in Hx.
Qed.

Lemma summarize_outcome (topic content : pystr) (m : machine (World S)) :
  exists summary m' evs,
    _summarize_content S topic content m = (Ok summary, m')
    /\ trace m' = trace m ++ evs
    /\ filter is_fetch evs = []
    /\ evs = match summary_prompt S topic content with
             | Ok prompt => [EvLLM ScraperModel prompt]
             | Raise _ => []
             end.
Proof.
  unfold _summarize_content; run_monad.
  destruct (summary_prompt S topic content) as [prompt|e].
  - destruct (llm_invoke S ScraperModel prompt (world m)) as [[v|e] w];
      eexists _, _, _; repeat split.
  - eexists _, _, []; repeat split; cbn [trace]; now rewrite app_nil_r.
Qed.

Lemma generate_outcome (topic content : pystr) (m : machine (World S)) :
  exists tree m',
    generate_knowledge_tree S topic content m = (Ok tree, m').
Proof.
  unfold generate_knowledge_tree; run_monad.
  destruct (tree_prompt S topic content) as [prompt|e];
    [|eexists _, _; reflexivity].
  destruct (llm_invoke S TreeModel prompt (world m)) as [[v|e] w];
    [|eexists _, _; reflexivity].
  destruct (extract_json_of S v) as [j|e]; [|eexists _, _; reflexivity].
  destruct (json_loads S j); eexists _, _; reflexivity.
Qed.

Lemma filter_length_le {A : Type} (p : A -> bool) (l : list A) :
  length (filter p l) <= length l.
Proof.
  induction l as [|x l IH]; simpl; [lia|].
  destruct (p x); simpl; lia.
Qed.

Lemma slice_to_3_length {A : Type} (l : list A) : length (slice_to 3 l) <= 3.
Proof. pose proof (slice_to_length 3 l ltac:(lia)); lia. Qed.

Lemma fetch_events_filter (l : list pyval) :
  filter is_fetch (map (fun r => EvHttpGet (record_field (py "link") r)) l)
  = map (fun r => EvHttpGet (record_field (py "link") r)) l.
Proof.
  induction l as [|r l IH]; [reflexivity|].
  cbn [map filter is_fetch]; f_equal; exact IH.
Qed.

(** What [analyze_topic] returns and leaves in the trace. *)
Lemma analyze_topic_outcome (topic : pystr) (m : machine (World S)) :
  let results := fst (search_outcome S topic 5 m) in
  let m1 := snd (search_outcome S topic 5 m) in
  let fetched := fetch_each S (slice_to 3 results) m1 in
  let kept := filter has_content (fst fetched) in
  exists summary m',
    analyze_topic S topic m
    = (Ok (VDict [ (py "topic", VStr topic);
                   (py "summary", summary);
                   (py "sources", VList (map doc_url kept)) ]), m')
    /\ trace m' = trace (snd fetched)
                  ++ match summary_prompt S topic (combine_content S kept) with
                     | Ok prompt => [EvLLM ScraperModel prompt]
                     | Raise _ => []
                     end.
Proof.
  intros results m1 fetched kept.
  unfold analyze_topic.
  unfold bind at 1; rewrite search_web_outcome.
  fold results m1.
  unfold bind at 1.
  rewrite (collect_content_spec (slice_to 3 results)
             (slice_to_forall _ _ _ (search_outcome_records topic 5 m)) [] m1).
  cbn [app]; fold fetched kept.
  unfold bind at 1.
  destruct (summarize_outcome topic (combine_content S kept) (snd fetched))
    as (summary & m' & evs & -> & Ht & _ & ->).
  exists summary, m'; split; [reflexivity|exact Ht].
Qed.

(** C10. [analyze_topic] fetches the links of the first three search
    results and no other page, however many results the search client
    returned; the sources it returns are at most three. *)
Theorem analyze_topic_top3 :
  forall (topic : pystr) (m : machine (World S)),
    exists results m1 summary urls m',
      search_web S topic 5 m = (Ok results, m1)
      /\ analyze_topic S topic m
         = (Ok (VDict [ (py "topic", VStr topic);
                        (py "summary", summary);
                        (py "sources", VList urls) ]), m')
      /\ filter is_fetch (trace m')
         = filter is_fetch (trace m)
           ++ map (fun r => EvHttpGet (record_field (py "link") r))
                (slice_to 3 results)
      /\ count is_fetch (trace m') <= count is_fetch (trace m) + 3
      /\ length urls <= 3.
Proof.
  intros topic m.
  destruct (analyze_topic_outcome topic m) as (summary & m' & Hrun & Ht).
  set (results := fst (search_outcome S topic 5 m)) in *.
  set (m1 := snd (search_outcome S topic 5 m)) in *.
  set (fetched := fetch_each S (slice_to 3 results) m1) in *.
  exists results, m1, summary,
    (map doc_url (filter has_content (fst fetched))), m'.
  assert (Hf : filter is_fetch (trace m')
               = filter is_fetch (trace m)
                 ++ map (fun r => EvHttpGet (record_field (py "link") r))
                      (slice_to 3 results)).
  { rewrite Ht.
    destruct (fetch_each_trace (slice_to 3 results) m1) as [Hft _].
    fold fetched in Hft; rewrite Hft.
    destruct (search_outcome_trace topic 5 m) as (evs & He & Hnf & _).
    fold m1 in He; rewrite He.
    rewrite !filter_app, Hnf, app_nil_r.
    assert (Hl : filter is_fetch
                   match summary_prompt S topic
                           (combine_content S (filter has_content (fst fetched))) with
                   | Ok prompt => [EvLLM ScraperModel prompt]
                   | Raise _ => []
                   end = []).
    { destruct (summary_prompt S topic _); reflexivity. }
    rewrite Hl, app_nil_r; f_equal.
    apply fetch_events_filter. }
  split; [apply search_web_outcome|].
  split; [exact Hrun|].
  split; [exact Hf|].
  split.
  - unfold count; rewrite Hf, length_app, length_map.
    pose proof (slice_to_3_length results); lia.
  - rewrite length_map.
    pose proof (filter_length_le has_content (fst fetched)).
    unfold fetched in *; rewrite fetch_each_length in *.
    pose proof (slice_to_3_length results); lia.
Qed.

End FetchLoop.

Section Orchestration.

Context (S : Services).

(** *** The orchestration *)

Lemma str_eqb_refl (s : pystr) : str_eqb s s = true.
Proof. induction s as [|c s IH]; simpl; [reflexivity|]. now rewrite N.eqb_refl. Qed.

(** An assignment to a key replaces whatever the key held. *)
Lemma dict_get_set (k : pystr) (v : pyval) (d : pydict) :
  dict_get k (dict_set k v d) = Some v.
Proof.
  induction d as [|[k' v'] d IH]; simpl.
  - now rewrite str_eqb_refl.
  - destruct (str_eqb k k') eqn:E; simpl; [now rewrite str_eqb_refl|].
    now rewrite E.
Qed.

Lemma search_web_records_of (query : pystr) (n : Z) (m m1 : machine (World S))
    (results : list pyval) :
  search_web S query n m = (Ok results, m1) ->
  Forall is_search_record results.
Proof.
  intros H; rewrite search_web_outcome in H; injection H as <- _.
  apply search_outcome_records.
Qed.

(** C4, as the code has it.  Among the results it fetches (every search
    result in the handler of app.py, the first three in [analyze_topic]) the
    orchestrator leaves out exactly those whose fetched content is empty and
    keeps the others in their order: the combined content is made of their
    blocks joined by blank lines, and the sources are their URLs in the same
    order.  The handler and [research_topic] assign the sources to the tree
    the builder returned, replacing whatever the key held, the fallback tree
    included. *)
Theorem sources_follow_fetched_results :
  (forall (topic : pystr) (n : Z) (m m1 : machine (World S)) (results : list pyval),
      nonempty topic = true ->
      search_web S topic n m = (Ok results, m1) ->
      nonempty results = true ->
      let fetched := fetch_each S results m1 in
      let kept := filter has_content (fst fetched) in
      exists tree m3,
        generate_knowledge_tree S topic
          (join [ch_lf; ch_lf] (map (source_block S) kept)) (snd fetched)
        = (Ok tree, m3)
        /\ forall d,
             tree = VDict d ->
             search_button_handler S topic n m
             = (Ok tt,
                {| world := world m3;
                   trace := trace m3;
                   session :=
                     {| knowledge_tree :=
                          VDict (dict_set (py "sources") (VList (map doc_url kept)) d);
                        current_subtopic := VNone;
                        expanded_subtopic := VNone |} |})
             /\ dict_get (py "sources")
                  (dict_set (py "sources") (VList (map doc_url kept)) d)
                = Some (VList (map doc_url kept)))
  /\ (forall (topic : pystr) (m m1 : machine (World S)) (results : list pyval),
        search_web S topic 5 m = (Ok results, m1) ->
        let fetched := fetch_each S (slice_to 3 results) m1 in
        let kept := filter has_content (fst fetched) in
        exists summary m3,
          _summarize_content S topic
            (join [ch_lf; ch_lf] (map (source_block S) kept)) (snd fetched)
          = (Ok summary, m3)
          /\ analyze_topic S topic m
             = (Ok (VDict [ (py "topic", VStr topic);
                            (py "summary", summary);
                            (py "sources", VList (map doc_url kept)) ]), m3))
  /\ (forall (topic summary : pystr) (sources : pyval) (m : machine (World S)),
        exists tree m',
          generate_knowledge_tree S topic summary m = (Ok tree, m')
          /\ forall d,
               tree = VDict d ->
               research_topic S topic summary sources m
               = (Ok (VDict (dict_set (py "sources") sources d)), m')
               /\ dict_get (py "sources") (dict_set (py "sources") sources d)
                  = Some sources).
Proof.
  split; [|split].
  - intros topic n m m1 results Htopic Hsearch Hres fetched kept.
    pose proof (search_web_records_of _ _ _ _ _ Hsearch) as Hrec.
    destruct (generate_outcome S topic
                (join [ch_lf; ch_lf] (map (source_block S) kept)) (snd fetched))
      as (tree & m3 & Hgen).
    exists tree, m3; split; [exact Hgen|].
    intros d ->; split; [|apply dict_get_set].
    unfold search_button_handler.
    rewrite Htopic; cbn [negb].
    unfold try_except, bind at 1.
    rewrite Hsearch, Hres; cbn [negb].
    unfold bind at 1.
    rewrite (collect_content_spec S results Hrec [] m1); cbn [app].
    fold fetched; fold kept.
    unfold bind at 1, combine_content.
    rewrite Hgen.
    reflexivity.
  - intros topic m m1 results Hsearch fetched kept.
    pose proof (search_web_records_of _ _ _ _ _ Hsearch) as Hrec.
    destruct (summarize_outcome S topic
                (join [ch_lf; ch_lf] (map (source_block S) kept)) (snd fetched))
      as (summary & m3 & evs & Hsum & _).
    exists summary, m3; split; [exact Hsum|].
    unfold analyze_topic.
    unfold bind at 1; rewrite Hsearch.
    unfold bind at 1.
    rewrite (collect_content_spec S (slice_to 3 results)
               (slice_to_forall _ _ _ Hrec) [] m1); cbn [app].
    fold fetched; fold kept.
    unfold bind at 1, combine_content.
    rewrite Hsum.
    reflexivity.
  - intros topic summary sources m.
    destruct (generate_outcome S topic summary m) as (tree & m' & Hgen).
    exists tree, m'; split; [exact Hgen|].
    intros d ->; split; [|apply dict_get_set].
    unfold research_topic, bind; rewrite Hgen; reflexivity.
Qed.

(** X1, the guarded path of C2.  The handler of app.py on an empty list of
    results shows the no-results message and stops: neither a fetch nor a
    call of a model, and the session state is left as it was. *)
Theorem handler_no_results :
  forall (topic : pystr) (n : Z) (m m1 : machine (World S)),
    nonempty topic = true ->
    search_web S topic n m = (Ok [], m1) ->
    search_button_handler S topic n m
    = (Ok tt, {| world := world m1;
                 trace := trace m1 ++ [EvStError msg_no_results];
                 session := session m1 |})
    /\ count is_fetch (trace m1 ++ [EvStError msg_no_results])
       = count is_fetch (trace m)
    /\ count is_llm (trace m1 ++ [EvStError msg_no_results])
       = count is_llm (trace m)
    /\ session m1 = session m.
Proof.
  intros topic n m m1 Htopic Hsearch.
  split.
  - unfold search_button_handler.
    rewrite Htopic; cbn [negb].
    unfold try_except, bind at 1.
    rewrite Hsearch; reflexivity.
  - rewrite search_web_outcome in Hsearch.
    injection Hsearch as _ <-.
    destruct (search_outcome_trace S topic n m) as (evs & -> & Hf & Hl & _ & Hs).
    unfold count.
    rewrite !filter_app, Hf, Hl; cbn [filter is_fetch is_llm].
    rewrite !app_nil_r; auto.
Qed.

(** [analyze_topic] on an empty list of results: no fetch, and the call of
    the model on an empty content all the same. *)
Lemma analyze_topic_no_results :
  forall (topic prompt : pystr) (m m1 : machine (World S)),
    search_web S topic 5 m = (Ok [], m1) ->
    summary_prompt S topic [] = Ok prompt ->
    exists summary m',
      analyze_topic S topic m
      = (Ok (VDict [ (py "topic", VStr topic);
                     (py "summary", summary);
                     (py "sources", VList []) ]), m')
      /\ trace m' = trace m1 ++ [EvLLM ScraperModel prompt].
Proof.
  intros topic prompt m m1 Hsearch Hprompt.
  destruct (analyze_topic_outcome S topic m) as (summary & m' & Hrun & Ht).
  rewrite search_web_outcome in Hsearch; injection Hsearch as Hr Hm.
  rewrite Hr, Hm in *.
  change (slice_to 3 (@nil pyval)) with (@nil pyval) in *.
  cbn [fetch_each fst snd filter map combine_content join] in *.
  rewrite Hprompt in Ht.
  exists summary, m'; split; assumption.
Qed.

End Orchestration.

(** ** The pipeline on concrete inputs *)

(** C5 at three requested results out of four offered. *)
Lemma search_web_bounded_witness :
  exists results m',
    search_web services_four (py "t") 3 machine0 = (Ok results, m')
    /\ (Z.of_nat (length results) <= 3)%Z.
Proof.
  destruct (search_web_bounded services_four (py "t") 3 machine0 ltac:(lia))
    as (results & m' & Hrun & Hlen & _).
  exists results, m'; split; assumption.
Defined.

(** C7 at the same search: three records made from the provider's items,
    whose snippet the provider did not send. *)
Lemma search_web_records_witness :
  search_web services_four (py "t") 3 machine0
  = (Ok [ search_record (provider_entries "a" "A");
          search_record (provider_entries "b" "B");
          search_record (provider_entries "c" "C") ],
     {| world := 2;
        trace := [EvSerpRun (py "t"); EvSerpSearch (py "t") 3];
        session := session machine0 |})
  /\ exists ds,
       map VDict ds
       = [ provider_item "a" "A"; provider_item "b" "B"; provider_item "c" "C" ]
       /\ map search_record ds
          = [ VDict [ (py "title", VStr (py "a")); (py "snippet", VStr []);
                      (py "link", VStr (py "A")) ];
              VDict [ (py "title", VStr (py "b")); (py "snippet", VStr []);
                      (py "link", VStr (py "B")) ];
              VDict [ (py "title", VStr (py "c")); (py "snippet", VStr []);
                      (py "link", VStr (py "C")) ] ].
Proof.
  split; [reflexivity|].
  destruct (search_web_records services_four (py "t") 3 machine0 _ _ eq_refl)
    as [H|(raw & w1 & payload & w2 & items & ds & H1 & H2 & H3 & H4 & H5)].
  - discriminate H.
  - exists ds.
    injection H1 as <- <-.
    injection H2 as <- <-.
    injection H3 as <-.
    split; [symmetry; exact H4|symmetry; exact H5].
Defined.

(** C7 as stated fails when the provider sends a null title: the record
    has the fields title, snippet and link, and its title is no string. *)
Lemma search_result_null_title :
  exists m',
    search_web services_null_title (py "t") 3 machine0
    = (Ok [ VDict [ (py "title", VNone); (py "snippet", VStr []);
                    (py "link", VStr []) ] ], m')
    /\ ~ Forall search_result_as_specified
           [ VDict [ (py "title", VNone); (py "snippet", VStr []);
                     (py "link", VStr []) ] ].
Proof.
  eexists; split; [reflexivity|].
  intros H.
  inversion H as [|x l (t & s & u & E) _]; subst.
  discriminate E.
Qed.

(** C9 on the sample page: the letter x stands in the script only. *)
Lemma html_text_drops_blocked_witness :
  In 120%N (py "var x;")
  /\ ~ In 120%N (html_text services_four (py "<html>")).
Proof.
  split; [vm_compute; tauto|].
  apply (proj2 (proj2 (html_text_drops_blocked services_four (py "<html>")))
           120%N).
  - discriminate.
  - intros s Hs Hc.
    vm_compute in Hs.
    destruct Hs as [<-|[]].
    vm_compute in Hc.
    repeat (destruct Hc as [Hc|Hc]; [discriminate Hc|]).
    exact Hc.
Defined.

(** C3 with a model that fails. *)
Lemma generate_knowledge_tree_fallback_witness :
  fst (generate_knowledge_tree services_llm_down (py "t") (py "c") machine0)
  = Ok (fallback_tree (py "t") (py "quota exceeded")).
Proof.
  exact (proj1 (proj2 (proj2
           (generate_knowledge_tree_fallback services_llm_down
              (py "t") (py "c") machine0)))
           _ _ _ eq_refl eq_refl).
Defined.

(** C6 with a model that fails. *)
Lemma expand_subtopic_fallback_witness :
  fst (expand_subtopic services_llm_down (py "t") (py "s") (py "c") machine0)
  = Ok (fallback_expansion (py "s") (py "quota exceeded")).
Proof.
  exact (proj1 (proj2 (proj2
           (expand_subtopic_fallback services_llm_down
              (py "t") (py "s") (py "c") machine0)))
           _ _ _ eq_refl eq_refl).
Defined.

(** C4 in the handler, with four results of which the second cannot be
    fetched and a model that fails: the fallback tree gets the sources A, C
    and D. *)
Lemma sources_follow_fetched_results_witness :
  exists d,
    knowledge_tree
      (session (snd (search_button_handler services_llm_down (py "t") 4 machine0)))
    = VDict d
    /\ dict_get (py "sources") d
       = Some (VList [ VStr (py "A"); VStr (py "C"); VStr (py "D") ])
    /\ dict_get (py "topic") d = Some (VStr (py "t")).
Proof.
  pose (run := search_web services_llm_down (py "t") 4 machine0).
  pose (results := match fst run with Ok l => l | Raise _ => [] end).
  assert (Hs : search_web services_llm_down (py "t") 4 machine0
               = (Ok results, snd run)) by reflexivity.
  destruct (proj1 (sources_follow_fetched_results services_llm_down)
              (py "t") 4%Z machine0 (snd run) results eq_refl Hs eq_refl)
    as (tree & m3 & Hgen & H).
  vm_compute in Hgen.
  injection Hgen as <- <-.
  destruct (H _ eq_refl) as [Hrun Hsrc].
  rewrite Hrun.
  eexists; split; [reflexivity|].
  split; reflexivity.
Defined.

(** In the handler a tree that came with sources of its own gets the
    fetched ones: the decoded answer of the model holds the string old
    under the key. *)
Example handler_overwrites_sources :
  sample_loads example_json
  = Ok (VDict [ (py "topic", VStr (py "T")); (py "sources", VStr (py "old")) ])
  /\ knowledge_tree
       (session (snd (search_button_handler services_four (py "t") 4 machine0)))
     = VDict [ (py "topic", VStr (py "T"));
               (py "sources",
                VList [ VStr (py "A"); VStr (py "C"); VStr (py "D") ]) ].
Proof. split; vm_compute; reflexivity. Qed.

(** C4 as stated fails for [analyze_topic]: of four results whose pages can
    be fetched but the second, the results with a content are A, C and D,
    and it returns the sources A and C. *)
Lemma analyze_topic_omits_fourth :
  exists results m1 summary m',
    search_web services_four (py "t") 5 machine0 = (Ok results, m1)
    /\ map doc_url (filter has_content (fst (fetch_each services_four results m1)))
       = [ VStr (py "A"); VStr (py "C"); VStr (py "D") ]
    /\ analyze_topic services_four (py "t") machine0
       = (Ok (VDict [ (py "topic", VStr (py "t"));
                      (py "summary", summary);
                      (py "sources", VList [ VStr (py "A"); VStr (py "C") ]) ]),
          m')
    /\ [ VStr (py "A"); VStr (py "C") ]
       <> map doc_url
            (filter has_content (fst (fetch_each services_four results m1))).
Proof.
  exists (match fst (search_web services_four (py "t") 5 machine0) with
          | Ok l => l
          | Raise _ => []
          end),
    (snd (search_web services_four (py "t") 5 machine0)),
    (VStr example_fenced),
    (snd (analyze_topic services_four (py "t") machine0)).
  repeat split; try (vm_compute; reflexivity).
  vm_compute; discriminate.
Qed.

(** The handler of app.py at a search without results. *)
Lemma handler_no_results_witness :
  snd (search_button_handler services_no_results (py "t") 4 machine0)
  = {| world := 2;
       trace := [ EvSerpRun (py "t"); EvSerpSearch (py "t") 4;
                  EvStError msg_no_results ];
       session := session machine0 |}.
Proof.
  pose (m1 := snd (search_web services_no_results (py "t") 4 machine0)).
  destruct (handler_no_results services_no_results (py "t") 4 machine0 m1
              eq_refl eq_refl) as [Hrun _].
  rewrite Hrun; reflexivity.
Defined.

(** C2 at [analyze_topic]: the search returns nothing, no page is fetched,
    no message is shown, and the model is called once. *)
Lemma analyze_topic_calls_model_without_results :
  fst (search_web services_no_results (py "t") 5 machine0) = Ok []
  /\ trace (snd (analyze_topic services_no_results (py "t") machine0))
     = [ EvSerpRun (py "t"); EvSerpSearch (py "t") 5;
         EvLLM ScraperModel (py "t" ++ [ch_lf]) ]
  /\ count is_llm
       (trace (snd (analyze_topic services_no_results (py "t") machine0))) = 1
  /\ count is_fetch
       (trace (snd (analyze_topic services_no_results (py "t") machine0))) = 0
  /\ count is_st_error
       (trace (snd (analyze_topic services_no_results (py "t") machine0))) = 0.
Proof. repeat split. Qed.

(** * Further properties of the code *)

(** ** The extractor *)

Lemma extract_json_eq_spec (text : pystr) :
  _extract_json text = extract_json_spec text.
Proof.
  unfold _extract_json, extract_json_spec.
  rewrite search_fence_spec, search_brace_spec.
  unfold fenced_result.
  destruct (fenced_block text); [reflexivity|].
  destruct (brace_span text); reflexivity.
Qed.

Lemma lstrip_suffix (s : pystr) : exists w, s = w ++ lstrip s.
Proof.
  induction s as [|c s [w IH]]; [now exists []|].
  simpl; destruct (is_space c).
  - exists (c :: w); simpl; now f_equal.
  - now exists [].
Qed.

Lemma rstrip_prefix (s : pystr) : exists w, s = rstrip s ++ w.
Proof.
  induction s as [|c s [w IH]]; [now exists []|].
  simpl; destruct (rstrip s) as [|d r].
  - destruct (is_space c).
    + now exists (c :: s).
    + exists w; simpl in *; now f_equal.
  - exists w; simpl in *; now f_equal.
Qed.

Lemma strip_inside (s : pystr) : exists a b, s = a ++ strip s ++ b.
Proof.
  destruct (lstrip_suffix s) as [a Ha].
  destruct (rstrip_prefix (lstrip s)) as [b Hb].
  exists a, b; unfold strip; now rewrite <- Hb.
Qed.

Lemma untag_suffix (body : pystr) : exists a, body = a ++ untag body.
Proof.
  unfold untag; destruct (starts_with (py "json") body) eqn:E.
  - exists (py "json"); now apply starts_with_split in E.
  - now exists [].
Qed.

Lemma through_last_close_prefix (r m : pystr) :
  through_last_close r = Some m -> exists t, r = m ++ t.
Proof.
  revert m; induction r as [|c r IH]; simpl; intros m H; [discriminate|].
  destruct (through_last_close r) as [m'|].
  - injection H as <-; destruct (IH _ eq_refl) as [t ->]; now exists t.
  - destruct (c =? ch_rbrace)%N; [|discriminate].
    injection H as <-; now exists r.
Qed.

Lemma after_first_open_split (s r : pystr) :
  after_first_open s = Some r -> exists x, s = x ++ ch_lbrace :: r.
Proof.
  revert r; induction s as [|c s IH]; simpl; intros r H; [discriminate|].
  destruct (N.eqb_spec c ch_lbrace) as [->|].
  - injection H as <-; now exists [].
  - destruct (IH _ H) as [x ->]; now exists (c :: x).
Qed.

(** X2. Whatever the text, what [_extract_json] returns is one contiguous
    piece of it: the extractor cuts, it never adds or reorders. *)
Theorem extract_json_substring :
  forall text : pystr,
    exists before after, text = before ++ _extract_json text ++ after.
Proof.
  intros text; rewrite extract_json_eq_spec; unfold extract_json_spec.
  destruct (fenced_block text) as [body|] eqn:F.
  - unfold fenced_block in F.
    destruct (find_fence text) as [[a rest]|] eqn:F1; [|discriminate].
    destruct (find_fence rest) as [[body' t]|] eqn:F2; [|discriminate].
    injection F as ->.
    apply find_fence_some in F1, F2; subst text rest.
    destruct (untag_suffix body) as [u Hu].
    destruct (strip_inside (untag body)) as (x & y & Hs).
    exists (a ++ fence ++ u ++ x), (y ++ fence ++ t).
    rewrite Hu at 1; rewrite Hs at 1.
    now rewrite <- !app_assoc.
  - destruct (brace_span text) as [j|] eqn:B.
    + unfold brace_span in B.
      destruct (after_first_open text) as [r|] eqn:A; [|discriminate].
      destruct (through_last_close r) as [m|] eqn:T; [|discriminate].
      injection B as <-.
      apply after_first_open_split in A as [x ->].
      apply through_last_close_prefix in T as [t ->].
      exists x, t; reflexivity.
    + exists [], []; now rewrite app_nil_r.
Qed.

Lemma find_fence_no_backtick (pre rest : pystr) :
  ~ In ch_backtick pre -> find_fence (pre ++ fence ++ rest) = Some (pre, rest).
Proof.
  induction pre as [|c pre IH]; intros H.
  - exact (find_fence_here (fence ++ rest) (starts_with_app fence rest)).
  - change ((c :: pre) ++ fence ++ rest) with (c :: (pre ++ fence ++ rest)).
    rewrite find_fence_next.
    + rewrite IH; [reflexivity|]. intros Hc; apply H; now right.
    + destruct (starts_with fence (c :: pre ++ fence ++ rest)) eqn:E;
        [|reflexivity].
      apply fence_head in E; subst c; exfalso; apply H; now left.
Qed.

Lemma starts_with_fence_ext (s t : pystr) (c : char) :
  starts_with fence s = false -> c <> ch_backtick ->
  starts_with fence (s ++ c :: t) = false.
Proof.
  intros Hs Hc.
  assert (Hn : (ch_backtick =? c)%N = false)
    by (apply N.eqb_neq; intros E; now apply Hc).
  destruct s as [|a [|b [|d s]]]; cbn [app starts_with fence] in *.
  - now rewrite Hn.
  - now rewrite Hn, andb_false_r.
  - now rewrite Hn, !andb_false_r.
  - exact Hs.
Qed.

Lemma find_fence_closing (j post : pystr) (c : char) :
  find_fence j = None -> c <> ch_backtick ->
  find_fence (j ++ c :: fence ++ post) = Some (j ++ [c], post).
Proof.
  intros Hj Hc; induction j as [|d j IH].
  - change ([] ++ c :: fence ++ post) with (c :: (fence ++ post)).
    rewrite find_fence_next.
    + now rewrite (find_fence_here (fence ++ post) (starts_with_app fence post)).
    + destruct (starts_with fence (c :: fence ++ post)) eqn:E; [|reflexivity].
      apply fence_head in E; now apply Hc in E.
  - assert (Hd : starts_with fence (d :: j) = false).
    { destruct (starts_with fence (d :: j)) eqn:E; [|reflexivity].
      now rewrite (find_fence_here _ E) in Hj. }
    rewrite (find_fence_next _ _ Hd) in Hj.
    destruct (find_fence j) as [[a b]|] eqn:Fj; [discriminate|].
    change ((d :: j) ++ c :: fence ++ post) with (d :: (j ++ c :: fence ++ post)).
    rewrite find_fence_next.
    + now rewrite IH.
    + exact (starts_with_fence_ext (d :: j) (fence ++ post) c Hd Hc).
Qed.

Lemma rstrip_space_end (s : pystr) (w : char) :
  is_space w = true -> rstrip (s ++ [w]) = rstrip s.
Proof.
  intros Hw; induction s as [|c s IH]; simpl; [now rewrite Hw|].
  now rewrite IH.
Qed.

Lemma lstrip_space_end (s : pystr) (w : char) :
  is_space w = true ->
  lstrip (s ++ [w]) = match lstrip s with [] => [] | l => l ++ [w] end.
Proof.
  intros Hw; induction s as [|c s IH]; simpl; [now rewrite Hw|].
  now destruct (is_space c).
Qed.

Lemma strip_space_end (s : pystr) (w : char) :
  is_space w = true -> strip (s ++ [w]) = strip s.
Proof.
  intros Hw; unfold strip; rewrite (lstrip_space_end s w Hw).
  destruct (lstrip s) as [|c l]; [reflexivity|].
  now apply rstrip_space_end.
Qed.

(** X3. Wrapping and unwrapping.  A payload without a fence of its own,
    put on lines of its own in a block tagged json after prose without a
    backtick, comes back stripped of the surrounding whitespace whatever
    follows the block. *)
Theorem extract_json_fenced_roundtrip :
  forall prose payload rest : pystr,
    ~ In ch_backtick prose ->
    find_fence payload = None ->
    _extract_json
      (prose ++ fence ++ py "json" ++ [ch_lf] ++ payload ++ [ch_lf] ++ fence ++ rest)
    = strip payload.
Proof.
  intros prose payload rest Hp Hj.
  rewrite extract_json_eq_spec; unfold extract_json_spec, fenced_block.
  rewrite (find_fence_no_backtick prose _ Hp), find_fence_tagged.
  cbn [app].
  rewrite find_fence_next by reflexivity.
  rewrite (find_fence_closing payload rest ch_lf Hj) by discriminate.
  change (untag (py "json" ++ ch_lf :: payload ++ [ch_lf]))
    with (ch_lf :: payload ++ [ch_lf]).
  rewrite strip_skip_space by reflexivity.
  now apply strip_space_end.
Qed.

Lemma after_first_open_here (pre r : pystr) :
  ~ In ch_lbrace pre -> after_first_open (pre ++ ch_lbrace :: r) = Some r.
Proof.
  induction pre as [|c pre IH]; intros H; simpl.
  - reflexivity.
  - destruct (N.eqb_spec c ch_lbrace) as [->|].
    + exfalso; apply H; now left.
    + apply IH; intros Hc; apply H; now right.
Qed.

Lemma through_last_close_absent (s : pystr) :
  ~ In ch_rbrace s -> through_last_close s = None.
Proof.
  induction s as [|c s IH]; intros H; simpl; [reflexivity|].
  rewrite IH by (intros Hc; apply H; now right).
  destruct (N.eqb_spec c ch_rbrace) as [->|]; [|reflexivity].
  exfalso; apply H; now left.
Qed.

Lemma through_last_close_here (j post : pystr) :
  ~ In ch_rbrace post ->
  through_last_close (j ++ ch_rbrace :: post) = Some (j ++ [ch_rbrace]).
Proof.
  intros H; induction j as [|c j IH]; simpl.
  - now rewrite (through_last_close_absent post H).
  - now rewrite IH.
Qed.

(** X4. An object in prose.  When the text has no fenced block, no
    opening brace stands before the object and no closing brace after it,
    the object comes back whole, nested braces included. *)
Theorem extract_json_object_in_prose :
  forall before inner after : pystr,
    fenced_block (before ++ ch_lbrace :: inner ++ ch_rbrace :: after) = None ->
    ~ In ch_lbrace before ->
    ~ In ch_rbrace after ->
    _extract_json (before ++ ch_lbrace :: inner ++ ch_rbrace :: after)
    = ch_lbrace :: inner ++ [ch_rbrace].
Proof.
  intros before inner after Hf Hb Ha.
  rewrite extract_json_eq_spec; unfold extract_json_spec, brace_span.
  rewrite Hf, (after_first_open_here before _ Hb).
  now rewrite (through_last_close_here inner after Ha).
Qed.

Lemma lstrip_head (s : pystr) (c : char) (r : pystr) :
  lstrip s = c :: r -> is_space c = false.
Proof.
  induction s as [|d s IH]; simpl; [discriminate|].
  destruct (is_space d) eqn:E; [exact IH|].
  intros H; injection H as <- _; exact E.
Qed.

Lemma lstrip_fixed (s : pystr) :
  match s with [] => True | c :: _ => is_space c = false end -> lstrip s = s.
Proof. destruct s as [|c s]; simpl; [reflexivity|]. now intros ->. Qed.

Lemma rstrip_head (s : pystr) :
  match s with [] => True | c :: _ => is_space c = false end ->
  match rstrip s with [] => s = [] | c :: _ => is_space c = false end.
Proof.
  destruct s as [|c s]; simpl; [reflexivity|].
  intros Hc; destruct (rstrip s); [now rewrite Hc|exact Hc].
Qed.

Lemma rstrip_idem (s : pystr) : rstrip (rstrip s) = rstrip s.
Proof.
  induction s as [|c s IH]; simpl; [reflexivity|].
  destruct (rstrip s) as [|d r] eqn:R.
  - destruct (is_space c) eqn:E; simpl; [reflexivity|now rewrite E].
  - simpl in *; now rewrite IH.
Qed.

(** Stripping twice is stripping once. *)
Lemma strip_idem (s : pystr) : strip (strip s) = strip s.
Proof.
  unfold strip at 1 2.
  assert (H : lstrip (rstrip (lstrip s)) = rstrip (lstrip s)).
  { apply lstrip_fixed.
    pose proof (rstrip_head (lstrip s)) as R.
    destruct (lstrip s) as [|c l] eqn:L; [exact I|].
    specialize (R (lstrip_head _ _ _ L)).
    destruct (rstrip (c :: l)); [exact I|exact R]. }
  unfold strip; rewrite H; apply rstrip_idem.
Qed.

Lemma through_last_close_end (r m : pystr) :
  through_last_close r = Some m -> exists mid, m = mid ++ [ch_rbrace].
Proof.
  revert m; induction r as [|c r IH]; simpl; intros m H; [discriminate|].
  destruct (through_last_close r) as [m'|].
  - injection H as <-; destruct (IH _ eq_refl) as [mid ->].
    now exists (c :: mid).
  - destruct (N.eqb_spec c ch_rbrace) as [->|]; [|discriminate].
    injection H as <-; now exists [].
Qed.

(** X5. What the decoder is handed.  With a fenced block in the text the
    extracted string neither starts nor ends with whitespace; without one
    but with a brace pair it starts with the opening and ends with the
    closing brace. *)
Theorem extract_json_shape :
  forall text : pystr,
    (forall body, fenced_block text = Some body ->
                  strip (_extract_json text) = _extract_json text)
    /\ (forall span, fenced_block text = None -> brace_span text = Some span ->
                     exists mid,
                       _extract_json text = ch_lbrace :: mid ++ [ch_rbrace]).
Proof.
  intros text; rewrite extract_json_eq_spec; unfold extract_json_spec; split.
  - intros body ->; apply strip_idem.
  - intros span -> B; rewrite B.
    unfold brace_span in B.
    destruct (after_first_open text) as [r|]; [|discriminate].
    destruct (through_last_close r) as [m|] eqn:T; [|discriminate].
    injection B as <-.
    destruct (through_last_close_end _ _ T) as [mid ->]; now exists mid.
Qed.

(** ** The cleaned text *)

Lemma adjacent_cons (x y a b : char) (t : pystr) :
  adjacent x y (a :: b :: t)
  = ((a =? x) && (b =? y))%N || adjacent x y (b :: t).
Proof. reflexivity. Qed.

Lemma adjacent_app_l (x y : char) (a t : pystr) :
  adjacent x y a = true -> adjacent x y (a ++ t) = true.
Proof.
  induction a as [|a1 a IH]; [discriminate|].
  destruct a as [|a2 a]; [discriminate|].
  intros H.
  change ((a1 :: a2 :: a) ++ t) with (a1 :: a2 :: (a ++ t)).
  rewrite adjacent_cons in H |- *.
  apply orb_true_iff in H as [H|H]; [now rewrite H|].
  change (a2 :: a ++ t) with ((a2 :: a) ++ t).
  rewrite (IH H); apply orb_true_r.
Qed.

Lemma adjacent_app_r (x y : char) (a t : pystr) :
  adjacent x y t = true -> adjacent x y (a ++ t) = true.
Proof.
  intros H; induction a as [|a1 a IH]; [exact H|].
  cbn [app]; destruct (a ++ t) as [|b r] eqn:E; [discriminate IH|].
  rewrite adjacent_cons, IH; apply orb_true_r.
Qed.

Lemma adjacent_absent (x y : char) (a t : pystr) :
  ~ In x a -> adjacent x y (a ++ t) = adjacent x y t.
Proof.
  induction a as [|a1 a IH]; intros H; [reflexivity|].
  assert (Ha : (a1 =? x)%N = false)
    by (apply N.eqb_neq; intros E; apply H; now left).
  assert (IH' : adjacent x y (a ++ t) = adjacent x y t)
    by (apply IH; intros Hx; apply H; now right).
  cbn [app]; destruct (a ++ t) as [|b r] eqn:E.
  - rewrite <- IH'; reflexivity.
  - now rewrite adjacent_cons, Ha, IH'.
Qed.

Lemma adjacent_before (x y c : char) (a b : pystr) :
  c <> y -> adjacent x y a = false ->
  adjacent x y (a ++ c :: b) = adjacent x y (c :: b).
Proof.
  intros Hc; induction a as [|a1 a IH]; intros H; [reflexivity|].
  destruct a as [|a2 a].
  - cbn [app]; rewrite adjacent_cons.
    assert (E : (c =? y)%N = false) by now apply N.eqb_neq.
    now rewrite E, andb_false_r.
  - rewrite adjacent_cons in H; apply orb_false_iff in H as [H1 H2].
    change ((a1 :: a2 :: a) ++ c :: b) with (a1 :: a2 :: (a ++ c :: b)).
    rewrite adjacent_cons, H1; cbn [orb].
    exact (IH H2).
Qed.

Lemma adjacent_after (x y c : char) (b : pystr) :
  c <> x -> adjacent x y (c :: b) = adjacent x y b.
Proof.
  intros Hc; destruct b as [|d b]; [reflexivity|].
  assert (E : (c =? x)%N = false) by now apply N.eqb_neq.
  now rewrite adjacent_cons, E.
Qed.

Lemma adjacent_firstn (x y : char) (n : nat) (s : pystr) :
  adjacent x y s = false -> adjacent x y (firstn n s) = false.
Proof.
  intros H; destruct (adjacent x y (firstn n s)) eqn:E; [|reflexivity].
  rewrite <- (firstn_skipn n s), (adjacent_app_l _ _ _ _ E) in H.
  discriminate.
Qed.

Lemma strip_keeps_adjacent (x y : char) (s : pystr) :
  adjacent x y s = false -> adjacent x y (strip s) = false.
Proof.
  intros H; destruct (adjacent x y (strip s)) eqn:E; [|reflexivity].
  destruct (strip_inside s) as (a & b & Hs).
  rewrite Hs in H.
  rewrite (adjacent_app_r _ _ a _ (adjacent_app_l _ _ _ b E)) in H.
  discriminate.
Qed.

Lemma strip_head (s : pystr) (c : char) (r : pystr) :
  strip s = c :: r -> is_space c = false.
Proof.
  unfold strip; intros H.
  destruct (rstrip_prefix (lstrip s)) as [w Hw].
  rewrite H in Hw.
  exact (lstrip_head s c (r ++ w) Hw).
Qed.

(** No line of [splitlines] holds a line boundary. *)
Lemma splitlines_no_break (s : pystr) :
  Forall (fun line => forall c, In c line -> is_linebreak c = false)
    (splitlines s).
Proof.
  remember (length s) as k eqn:Hk.
  assert (Hle : length s <= k) by lia; clear Hk.
  revert s Hle; induction k as [|k IH]; intros s Hle;
    [destruct s; [constructor|simpl in Hle; lia]|].
  destruct s as [|c s]; [constructor|].
  cbn [splitlines].
  destruct (is_linebreak c) eqn:Hc.
  - constructor; [intros ? []|].
    destruct s as [|d s']; [constructor|].
    destruct ((c =? ch_cr) && (d =? ch_lf))%N; apply IH; simpl in *; lia.
  - assert (Hs : Forall (fun l => forall c, In c l -> is_linebreak c = false)
                   (splitlines s)) by (apply IH; simpl in *; lia).
    destruct (splitlines s) as [|l ls].
    + constructor; [|constructor]. intros x [<-|[]]; exact Hc.
    + inversion Hs as [|? ? Hl Hls]; subst.
      constructor; [|exact Hls].
      intros x [<-|Hx]; [exact Hc|now apply Hl].
Qed.

Lemma split_2sp_head (s : pystr) :
  match split_2sp s with
  | (h :: _) :: _ => exists t, s = h :: t
  | _ => True
  end.
Proof.
  destruct s as [|c s]; [exact I|].
  cbn [split_2sp].
  assert (K : match
                match split_2sp s with
                | l :: ls => (c :: l) :: ls
                | [] => [[c]]
                end
              with
              | (h :: _) :: _ => exists t, c :: s = h :: t
              | _ => True
              end).
  { destruct (split_2sp s); now exists s. }
  destruct s as [|d s']; [exact K|].
  destruct ((c =? ch_space) && (d =? ch_space))%N; [exact I|exact K].
Qed.

(** No piece of [split("  ")] holds two spaces in a row. *)
Lemma split_2sp_no_double (s : pystr) :
  Forall (fun piece => adjacent ch_space ch_space piece = false) (split_2sp s).
Proof.
  remember (length s) as k eqn:Hk.
  assert (Hle : length s <= k) by lia; clear Hk.
  revert s Hle; induction k as [|k IH]; intros s Hle;
    [destruct s; [repeat constructor|simpl in Hle; lia]|].
  destruct s as [|c s]; [repeat constructor|].
  cbn [split_2sp].
  destruct s as [|d s'].
  - repeat constructor.
  - destruct ((c =? ch_space) && (d =? ch_space))%N eqn:Hcut.
    + constructor; [reflexivity|apply IH; simpl in *; lia].
    + assert (Hs : Forall (fun p => adjacent ch_space ch_space p = false)
                     (split_2sp (d :: s'))) by (apply IH; simpl in *; lia).
      pose proof (split_2sp_head (d :: s')) as Hh.
      destruct (split_2sp (d :: s')) as [|l ls]; [repeat constructor|].
      inversion Hs as [|? ? Hl Hls]; subst.
      constructor; [|exact Hls].
      destruct l as [|h l]; [reflexivity|].
      destruct Hh as [t Ht]; injection Ht as <- _.
      now rewrite adjacent_cons, Hcut, Hl.
Qed.

Lemma text_chunks_tidy (text : pystr) : Forall tidy_chunk (text_chunks text).
Proof.
  apply Forall_forall; intros p Hp.
  unfold text_chunks in Hp.
  apply filter_In in Hp as [Hp Hne].
  apply in_flat_map in Hp as (line & Hline & Hp).
  apply in_map_iff in Hp as (piece & <- & Hpiece).
  apply in_map_iff in Hline as (raw & <- & Hraw).
  pose proof (splitlines_no_break text) as L; rewrite Forall_forall in L.
  pose proof (split_2sp_incl (strip raw)) as P; rewrite Forall_forall in P.
  pose proof (split_2sp_no_double (strip raw)) as D; rewrite Forall_forall in D.
  repeat split.
  - intros E; rewrite E in Hne; discriminate.
  - intros c r E; exact (strip_head _ _ _ E).
  - intros c Hc.
    apply (L raw Hraw), strip_incl, (P piece Hpiece), strip_incl, Hc.
  - apply strip_keeps_adjacent, (D piece Hpiece).
Qed.

Lemma linebreak_lf_space (c : char) :
  is_linebreak c = false -> c <> ch_lf.
Proof. intros H E; subst c; discriminate H. Qed.

Lemma join_tidy (chunks : list pystr) :
  Forall tidy_chunk chunks ->
  let out := join [ch_lf] chunks in
  (chunks <> [] -> out <> [])
  /\ (forall c r, out = c :: r -> is_space c = false)
  /\ adjacent ch_space ch_space out = false
  /\ adjacent ch_lf ch_lf out = false.
Proof.
  induction 1 as [|p rest (Hne & Hhead & Hbreak & Hsp) Hrest IH]; cbn zeta.
  - repeat split; try discriminate. congruence.
  - assert (Hnolf : ~ In ch_lf p).
    { intros Hin; apply Hbreak in Hin; discriminate Hin. }
    destruct rest as [|q rest].
    + cbn [join]; repeat split; auto.
      rewrite <- (app_nil_r p); now rewrite (adjacent_absent _ _ _ _ Hnolf).
    + cbn zeta in IH.
      destruct IH as (Jne & Jhead & Jsp & Jlf).
      change (join [ch_lf] (p :: q :: rest))
        with (p ++ ch_lf :: join [ch_lf] (q :: rest)).
      set (J := join [ch_lf] (q :: rest)) in *.
      repeat split.
      * intros _ E; destruct p; [now apply Hne|discriminate E].
      * intros c r E; destruct p as [|c' p']; [now elim Hne|].
        injection E as <- _; now apply (Hhead c' p').
      * rewrite adjacent_before by (auto || discriminate).
        now rewrite adjacent_after by discriminate.
      * rewrite (adjacent_absent _ _ _ _ Hnolf).
        destruct J as [|h J'] eqn:EJ; [reflexivity|].
        rewrite adjacent_cons, Jlf, orb_false_r.
        assert (Hh : is_space h = false) by now apply (Jhead h J').
        destruct (N.eqb_spec h ch_lf) as [->|]; [discriminate Hh|].
        apply andb_false_r.
Qed.

(** X6. The cleaned text is tidy: it holds no two spaces in a row and no
    empty line, it does not start with whitespace, and its only line
    boundaries are the line feeds between the chunks. *)
Theorem clean_text_tidy :
  forall doc : soup,
    adjacent ch_space ch_space (clean_text doc) = false
    /\ adjacent ch_lf ch_lf (clean_text doc) = false
    /\ (forall c rest, clean_text doc = c :: rest -> is_space c = false)
    /\ (forall c, In c (clean_text doc) -> is_linebreak c = true -> c = ch_lf).
Proof.
  intros doc.
  change (clean_text doc)
    with (slice_to 8000 (join [ch_lf] (text_chunks (get_text doc)))).
  pose proof (text_chunks_tidy (get_text doc)) as T.
  destruct (join_tidy _ T) as (_ & Hhead & Hsp & Hlf).
  set (out := join [ch_lf] (text_chunks (get_text doc))) in *.
  change (slice_to 8000 out) with (firstn (Z.to_nat 8000) out).
  repeat split.
  - now apply adjacent_firstn.
  - now apply adjacent_firstn.
  - intros c rest E.
    destruct out as [|c' out']; [now rewrite firstn_nil in E|].
    destruct (Z.to_nat 8000); [discriminate E|].
    injection E as <- _; now apply (Hhead c' out').
  - intros c Hc Hb.
    apply firstn_incl in Hc.
    apply join_chars in Hc as [[<-|[]]|(p & Hp & Hcp)]; [reflexivity|].
    rewrite Forall_forall in T.
    destruct (T p Hp) as (_ & _ & Hbreak & _).
    rewrite (Hbreak c Hcp) in Hb; discriminate.
Qed.

(** ** The services around the pipeline *)

Section Effects.

Context (S : Services).

Lemma format_results_all_dicts (items formatted out : list pyval) :
  format_results S items formatted = Ok out ->
  forallb is_dict items = true.
Proof.
  intros H; destruct (format_results_spec S _ _ _ H) as (ds & -> & _).
  clear H; induction ds as [|d ds IH]; [reflexivity|exact IH].
Qed.

(** X7. All or nothing.  When one of the organic results within the
    requested count is no object, or the organic results are no list, the
    search client returns no result at all, not the records built so far. *)
Theorem search_web_all_or_nothing :
  forall (query : pystr) (n : Z) (m : machine (World S))
         (raw : pystr) (w1 : World S) (payload : pydict) (w2 : World S)
         (organic : pyval),
    serp_run S query (world m) = (Ok raw, w1) ->
    serp_get_dict S query n w1 = (Ok payload, w2) ->
    dict_get organic_results payload = Some organic ->
    match organic with
    | VList items => forallb is_dict (slice_to n items) = false
    | _ => True
    end ->
    fst (search_web S query n m) = Ok [].
Proof.
  intros query n m raw w1 payload w2 organic H1 H2 H3 Hbad.
  rewrite search_web_outcome; cbn [fst]; f_equal.
  unfold search_outcome; rewrite H1, H2, H3.
  destruct organic; try reflexivity.
  destruct (format_results S (slice_to n items) []) as [out|e] eqn:F;
    [|reflexivity].
  apply format_results_all_dicts in F; rewrite F in Hbad; discriminate.
Qed.

(** X8. What a search costs.  The search client first calls the provider
    through the wrapper; when that call raises it stops with no result and
    without a second request, otherwise it sends the second request
    whatever the first returned.  It never fetches a page, calls a model,
    shows a message or touches the session state. *)
Theorem search_web_requests :
  forall (query : pystr) (n : Z) (m : machine (World S)),
    exists results m',
      search_web S query n m = (Ok results, m')
      /\ session m' = session m
      /\ ((exists e w,
              serp_run S query (world m) = (Raise e, w)
              /\ results = []
              /\ trace m' = trace m ++ [EvSerpRun query])
          \/ (exists raw w r2 w2,
                 serp_run S query (world m) = (Ok raw, w)
                 /\ serp_get_dict S query n w = (r2, w2)
                 /\ world m' = w2
                 /\ trace m' = trace m ++ [EvSerpRun query; EvSerpSearch query n])).
Proof.
  intros query n m.
  exists (fst (search_outcome S query n m)), (snd (search_outcome S query n m)).
  split; [apply search_web_outcome|].
  unfold search_outcome.
  destruct (serp_run S query (world m)) as [[raw|e] w1].
  - destruct (serp_get_dict S query n w1) as [r2 w2] eqn:E2.
    assert (K : forall out,
               snd (A := list pyval) (out,
                    {| world := w2;
                       trace := (trace m ++ [EvSerpRun query]) ++ [EvSerpSearch query n];
                       session := session m |})
               = {| world := w2;
                    trace := trace m ++ [EvSerpRun query; EvSerpSearch query n];
                    session := session m |})
      by (intros out; cbn [snd]; now rewrite <- app_assoc).
    match goal with
    | |- context [snd ?p] =>
        assert (Hm : snd p = {| world := w2;
                                trace := trace m ++ [EvSerpRun query; EvSerpSearch query n];
                                session := session m |})
    end.
    { destruct r2 as [payload|e]; [|apply K].
      destruct (dict_get organic_results payload) as [[| | | | |items|]|];
        try apply K.
      destruct (format_results S (slice_to n items) []); apply K. }
    rewrite Hm; split; [reflexivity|].
    right; exists raw, w1, r2, w2; repeat split; exact E2.
  - split; [reflexivity|].
    left; exists e, w1; repeat split.
Qed.

(** *** The tree builder *)

Lemma generate_effect (topic content : pystr) (m : machine (World S)) :
  exists tree m',
    generate_knowledge_tree S topic content m = (Ok tree, m')
    /\ session m' = session m
    /\ trace m' = trace m
                  ++ match tree_prompt S topic content with
                     | Ok prompt => [EvLLM TreeModel prompt]
                     | Raise _ => []
                     end.
Proof.
  unfold generate_knowledge_tree; run_monad.
  destruct (tree_prompt S topic content) as [prompt|e].
  - destruct (llm_invoke S TreeModel prompt (world m)) as [[v|e] w];
      [|eexists _, _; repeat split].
    destruct (extract_json_of S v) as [j|e]; [|eexists _, _; repeat split].
    destruct (json_loads S j); eexists _, _; repeat split.
  - eexists _, _; repeat split; cbn [trace]; now rewrite app_nil_r.
Qed.

Lemma expand_effect (topic subtopic content : pystr) (m : machine (World S)) :
  exists expanded m',
    expand_subtopic S topic subtopic content m = (Ok expanded, m')
    /\ session m' = session m
    /\ trace m' = trace m
                  ++ match expand_prompt S topic subtopic content with
                     | Ok prompt => [EvLLM TreeModel prompt]
                     | Raise _ => []
                     end.
Proof.
  unfold expand_subtopic; run_monad.
  destruct (expand_prompt S topic subtopic content) as [prompt|e].
  - destruct (llm_invoke S TreeModel prompt (world m)) as [[v|e] w];
      [|eexists _, _; repeat split].
    destruct (extract_json_of S v) as [j|e]; [|eexists _, _; repeat split].
    destruct (json_loads S j); eexists _, _; repeat split.
  - eexists _, _; repeat split; cbn [trace]; now rewrite app_nil_r.
Qed.

(** X9. Both operations of the tree builder call the model of the builder
    exactly once when their prompt renders and not at all otherwise,
    whether or not the answer can be decoded; they fetch nothing and leave
    the session state alone. *)
Theorem tree_builder_calls :
  (forall (topic content : pystr) (m : machine (World S)),
      let m' := snd (generate_knowledge_tree S topic content m) in
      session m' = session m
      /\ trace m' = trace m
                    ++ match tree_prompt S topic content with
                       | Ok prompt => [EvLLM TreeModel prompt]
                       | Raise _ => []
                       end)
  /\ (forall (topic subtopic content : pystr) (m : machine (World S)),
        let m' := snd (expand_subtopic S topic subtopic content m) in
        session m' = session m
        /\ trace m' = trace m
                      ++ match expand_prompt S topic subtopic content with
                         | Ok prompt => [EvLLM TreeModel prompt]
                         | Raise _ => []
                         end).
Proof.
  split.
  - intros topic content m.
    destruct (generate_effect topic content m) as (tree & m' & -> & Hs & Ht).
    now split.
  - intros topic subtopic content m.
    destruct (expand_effect topic subtopic content m)
      as (expanded & m' & -> & Hs & Ht).
    now split.
Qed.

Lemma str_eqb_sym (a b : pystr) : str_eqb a b = str_eqb b a.
Proof.
  revert b; induction a as [|x a IH]; intros [|y b]; simpl; try reflexivity.
  now rewrite IH, N.eqb_sym.
Qed.

Lemma str_eqb_trans_false (k k' s : pystr) :
  str_eqb s k' = true -> str_eqb k s = false -> str_eqb k k' = false.
Proof.
  revert k s; induction k' as [|y k' IH]; intros [|x k] [|z s]; simpl;
    try discriminate; try reflexivity.
  intros H1 H2.
  apply andb_true_iff in H1 as [Hz Hs].
  apply N.eqb_eq in Hz; subst z.
  destruct (x =? y)%N; [|reflexivity]; simpl in *.
  now apply (IH k s).
Qed.

(** Assigning to one key leaves the other keys as they were. *)
Lemma dict_get_set_other (k s : pystr) (v : pyval) (d : pydict) :
  str_eqb k s = false -> dict_get k (dict_set s v d) = dict_get k d.
Proof.
  intros Hk; induction d as [|[k' v'] d IH]; simpl.
  - now rewrite Hk.
  - destruct (str_eqb s k') eqn:E; simpl.
    + now rewrite Hk, (str_eqb_trans_false k k' s E Hk).
    + now rewrite IH.
Qed.

(** X10. [research_topic] puts the sources it is given under the key
    sources of the tree the builder returned and leaves every other key
    as it was; when the decoded answer is no object the assignment raises
    and [research_topic], unlike the builder, raises with it. *)
Theorem research_topic_sources :
  forall (topic summary : pystr) (sources : pyval) (m : machine (World S)),
    exists tree m',
      generate_knowledge_tree S topic summary m = (Ok tree, m')
      /\ match tree with
         | VDict d =>
             exists d',
               research_topic S topic summary sources m = (Ok (VDict d'), m')
               /\ dict_get (py "sources") d' = Some sources
               /\ forall k, str_eqb k (py "sources") = false ->
                            dict_get k d' = dict_get k d
         | other =>
             research_topic S topic summary sources m
             = (Raise (fault_text S (NoItemAssignment other)), m')
         end.
Proof.
  intros topic summary sources m.
  destruct (generate_outcome S topic summary m) as (tree & m' & Hgen).
  exists tree, m'; split; [exact Hgen|].
  unfold research_topic, bind; rewrite Hgen.
  destruct tree; try reflexivity.
  exists (dict_set (py "sources") sources entries).
  split; [reflexivity|].
  split; [apply dict_get_set|].
  intros k Hk; now apply dict_get_set_other.
Qed.

End Effects.

(** ** The handler and [analyze_topic] as wholes *)

Section Wholes.

Context (S : Services).

Lemma search_web_session (query : pystr) (n : Z) (m m1 : machine (World S))
    (results : list pyval) :
  search_web S query n m = (Ok results, m1) ->
  session m1 = session m
  /\ exists evs,
       trace m1 = trace m ++ evs
       /\ filter is_fetch evs = [] /\ filter is_llm evs = []
       /\ filter is_st_error evs = [].
Proof.
  intros H; rewrite search_web_outcome in H; injection H as _ <-.
  destruct (search_outcome_trace S query n m) as (evs & Ht & Hf & Hl & He & Hs).
  split; [exact Hs|]; exists evs; auto.
Qed.

(** The handler after a search with results: the fetches, the builder,
    then the tree with its sources or the message of the failed
    assignment. *)
Lemma handler_run (topic : pystr) (n : Z) (m m1 : machine (World S))
    (results : list pyval) :
  nonempty topic = true ->
  search_web S topic n m = (Ok results, m1) ->
  nonempty results = true ->
  let fetched := fetch_each S results m1 in
  let kept := filter has_content (fst fetched) in
  exists tree m3,
    generate_knowledge_tree S topic (combine_content S kept) (snd fetched)
    = (Ok tree, m3)
    /\ session m3 = session m
    /\ trace m3
       = (trace m1
          ++ map (fun r => EvHttpGet (record_field (py "link") r)) results)
         ++ match tree_prompt S topic (combine_content S kept) with
            | Ok prompt => [EvLLM TreeModel prompt]
            | Raise _ => []
            end
    /\ search_button_handler S topic n m
       = (Ok tt,
          match tree with
          | VDict d =>
              {| world := world m3;
                 trace := trace m3;
                 session :=
                   {| knowledge_tree :=
                        VDict (dict_set (py "sources") (VList (map doc_url kept)) d);
                      current_subtopic := VNone;
                      expanded_subtopic := VNone |} |}
          | other =>
              {| world := world m3;
                 trace := trace m3
                          ++ [EvStError (py "An error occurred: "
                                         ++ fault_text S (NoItemAssignment other))];
                 session := session m3 |}
          end).
Proof.
  intros Htopic Hsearch Hres fetched kept.
  pose proof (search_web_records_of S _ _ _ _ _ Hsearch) as Hrec.
  destruct (search_web_session _ _ _ _ _ Hsearch) as [Hs1 _].
  destruct (fetch_each_trace S results m1) as [Ht2 Hs2].
  fold fetched in Ht2, Hs2.
  destruct (generate_effect S topic (combine_content S kept) (snd fetched))
    as (tree & m3 & Hgen & Hs3 & Ht3).
  exists tree, m3.
  split; [exact Hgen|].
  split; [congruence|].
  split; [now rewrite Ht3, Ht2|].
  unfold search_button_handler.
  rewrite Htopic; cbn [negb].
  unfold try_except, bind at 1.
  rewrite Hsearch, Hres; cbn [negb].
  unfold bind at 1.
  rewrite (collect_content_spec S results Hrec [] m1); cbn [app].
  fold fetched; fold kept.
  unfold bind at 1.
  rewrite Hgen.
  destruct tree; reflexivity.
Qed.


Lemma filter_fetch_llm_tail (events : list event) :
  (forall e, In e events -> is_fetch e = false) ->
  filter is_fetch events = [].
Proof.
  induction events as [|e l IH]; intros H; [reflexivity|].
  cbn [filter]; rewrite (H e (or_introl eq_refl)).
  apply IH; intros x Hx; apply H; now right.
Qed.

(** X12. The handler requests the page of every search result exactly
    once, in the order of the results and whether or not an earlier page
    failed, and it calls a model at most once. *)
Theorem handler_fetches_every_result :
  forall (topic : pystr) (n : Z) (m m1 : machine (World S))
         (results : list pyval),
    nonempty topic = true ->
    search_web S topic n m = (Ok results, m1) ->
    let m' := snd (search_button_handler S topic n m) in
    filter is_fetch (trace m')
    = filter is_fetch (trace m)
      ++ map (fun r => EvHttpGet (record_field (py "link") r)) results
    /\ count is_llm (trace m') <= count is_llm (trace m) + 1.
Proof.
  intros topic n m m1 results Htopic Hsearch.
  destruct (search_web_session _ _ _ _ _ Hsearch)
    as (_ & evs & Ht1 & Hf1 & Hl1 & _).
  destruct (nonempty results) eqn:Hres.
  - destruct (handler_run topic n m m1 results Htopic Hsearch Hres)
      as (tree & m3 & _ & _ & Ht3 & ->).
    cbn zeta; cbn [snd].
    set (llm := match tree_prompt S topic _ with
                | Ok prompt => [EvLLM TreeModel prompt]
                | Raise _ => []
                end) in Ht3.
    assert (Hlf : filter is_fetch llm = [] /\ length (filter is_llm llm) <= 1).
    { subst llm; destruct (tree_prompt S topic _); cbn; split; auto. }
    destruct Hlf as [Hlf Hll].
    assert (Hfl : filter is_llm
                    (map (fun r => EvHttpGet (record_field (py "link") r)) results)
                  = []).
    { clear; induction results as [|r l IH]; [reflexivity|exact IH]. }
    assert (Hshape : exists tail,
               trace match tree with
                     | VDict d =>
                         {| world := world m3;
                            trace := trace m3;
                            session :=
                              {| knowledge_tree :=
                                   VDict (dict_set (py "sources")
                                            (VList (map doc_url
                                               (filter has_content
                                                  (fst (fetch_each S results m1))))) d);
                                 current_subtopic := VNone;
                                 expanded_subtopic := VNone |} |}
                     | other =>
                         {| world := world m3;
                            trace := trace m3
                                     ++ [EvStError (py "An error occurred: "
                                           ++ fault_text S (NoItemAssignment other))];
                            session := session m3 |}
                     end = trace m3 ++ tail
               /\ filter is_fetch tail = [] /\ filter is_llm tail = []).
    { destruct tree;
        try (eexists; cbn [trace]; split; [reflexivity|split; reflexivity]).
      exists []; cbn [trace]; rewrite app_nil_r; repeat split. }
    destruct Hshape as (tail & -> & Hft & Hlt).
    rewrite Ht3, Ht1.
    unfold count.
    rewrite !filter_app, Hf1, Hl1, Hlf, Hft, Hlt, Hfl, fetch_events_filter.
    rewrite !app_nil_r, !length_app; cbn [length].
    split; [reflexivity|lia].
  - destruct results; [|discriminate Hres].
    assert (Hrun : search_button_handler S topic n m
                   = (Ok tt, {| world := world m1;
                                trace := trace m1 ++ [EvStError msg_no_results];
                                session := session m1 |})).
    { unfold search_button_handler.
      rewrite Htopic; cbn [negb].
      unfold try_except, bind at 1.
      now rewrite Hsearch. }
    cbn zeta; rewrite Hrun; cbn [snd trace map].
    rewrite Ht1; unfold count.
    rewrite !filter_app, Hf1, Hl1; cbn [filter is_fetch is_llm].
    rewrite !app_nil_r; split; [reflexivity|lia].
Qed.

(** X13. When the search has results but every page fails or is empty,
    the handler does not report it: it calls the builder with an empty
    content without showing a message, and an object that comes back is
    stored as the tree with an empty list of sources. *)
Theorem handler_all_pages_down :
  forall (topic : pystr) (n : Z) (m m1 : machine (World S))
         (results : list pyval),
    nonempty topic = true ->
    search_web S topic n m = (Ok results, m1) ->
    nonempty results = true ->
    filter has_content (fst (fetch_each S results m1)) = [] ->
    exists tree m3,
      generate_knowledge_tree S topic [] (snd (fetch_each S results m1))
      = (Ok tree, m3)
      /\ filter is_st_error (trace m3) = filter is_st_error (trace m)
      /\ forall d,
           tree = VDict d ->
           search_button_handler S topic n m
           = (Ok tt,
              {| world := world m3;
                 trace := trace m3;
                 session :=
                   {| knowledge_tree :=
                        VDict (dict_set (py "sources") (VList []) d);
                      current_subtopic := VNone;
                      expanded_subtopic := VNone |} |}).
Proof.
  intros topic n m m1 results Htopic Hsearch Hres Hkept.
  destruct (handler_run topic n m m1 results Htopic Hsearch Hres)
    as (tree & m3 & Hgen & _ & Ht3 & Hrun).
  rewrite Hkept in Hgen, Ht3, Hrun.
  change (combine_content S []) with (@nil char) in Hgen, Ht3.
  exists tree, m3; split; [exact Hgen|].
  split.
  - destruct (search_web_session _ _ _ _ _ Hsearch)
      as (_ & evs & Ht1 & _ & _ & He1).
    rewrite Ht3, Ht1, !filter_app, He1, app_nil_r.
    assert (H1 : filter is_st_error
                   (map (fun r => EvHttpGet (record_field (py "link") r)) results)
                 = []).
    { clear; induction results as [|r l IH]; [reflexivity|exact IH]. }
    rewrite H1, app_nil_r.
    destruct (tree_prompt S topic []); cbn [filter is_st_error];
      now rewrite app_nil_r.
  - intros d ->; exact Hrun.
Qed.

(** X14. [analyze_topic] with a model that fails: the summary is the
    sentence "Failed to summarize content due to an error." and the
    sources of the pages that were fetched are returned all the same. *)
Theorem analyze_topic_model_down :
  forall (topic : pystr) (m m1 : machine (World S)) (results : list pyval)
         (prompt e : pystr) (w : World S),
    search_web S topic 5 m = (Ok results, m1) ->
    let fetched := fetch_each S (slice_to 3 results) m1 in
    let kept := filter has_content (fst fetched) in
    summary_prompt S topic (combine_content S kept) = Ok prompt ->
    llm_invoke S ScraperModel prompt (world (snd fetched)) = (Raise e, w) ->
    fst (analyze_topic S topic m)
    = Ok (VDict [ (py "topic", VStr topic);
                  (py "summary",
                   VStr (py "Failed to summarize content due to an error."));
                  (py "sources", VList (map doc_url kept)) ]).
Proof.
  intros topic m m1 results prompt e w Hsearch fetched kept Hprompt Hllm.
  pose proof (search_web_records_of S _ _ _ _ _ Hsearch) as Hrec.
  unfold analyze_topic.
  unfold bind at 1; rewrite Hsearch.
  unfold bind at 1.
  rewrite (collect_content_spec S (slice_to 3 results)
             (slice_to_forall _ _ _ Hrec) [] m1); cbn [app].
  fold fetched; fold kept.
  unfold bind at 1, _summarize_content; run_monad.
  now rewrite Hprompt, Hllm.
Qed.

End Wholes.

(** ** The further properties on concrete inputs *)

(** X3 on an answer that announces its block and comments it. *)
Lemma extract_json_fenced_roundtrip_witness :
  _extract_json
    (py "Here: " ++ fence ++ py "json" ++ [ch_lf] ++ example_json ++ [ch_lf]
       ++ fence ++ py " done")
  = example_json.
Proof.
  refine (eq_trans
            (extract_json_fenced_roundtrip (py "Here: ") example_json (py " done")
               _ eq_refl) eq_refl).
  intros H; vm_compute in H.
  repeat (destruct H as [H|H]; [discriminate H|]).
  exact H.
Defined.

(** X4 on an object with a nested one. *)
Lemma extract_json_object_in_prose_witness :
  _extract_json (py "foo " ++ ch_lbrace :: py "a{b}c" ++ ch_rbrace :: py " bar")
  = ch_lbrace :: py "a{b}c" ++ [ch_rbrace].
Proof.
  apply (extract_json_object_in_prose (py "foo ") (py "a{b}c") (py " bar")).
  - reflexivity.
  - intros H; vm_compute in H.
    repeat (destruct H as [H|H]; [discriminate H|]); exact H.
  - intros H; vm_compute in H.
    repeat (destruct H as [H|H]; [discriminate H|]); exact H.
Defined.

(** X5 on the examples of the specification. *)
Lemma extract_json_shape_witness :
  strip (_extract_json example_fenced) = _extract_json example_fenced
  /\ exists mid, _extract_json example_braces = ch_lbrace :: mid ++ [ch_rbrace].
Proof.
  split.
  - exact (proj1 (extract_json_shape example_fenced)
             (py "json" ++ [ch_lf] ++ example_json ++ [ch_lf]) eq_refl).
  - exact (proj2 (extract_json_shape example_braces) example_json eq_refl eq_refl).
Defined.

(** X7 with a string as second organic result. *)
Lemma search_web_all_or_nothing_witness :
  fst (search_web services_bad_item (py "t") 3 machine0) = Ok [].
Proof.
  exact (search_web_all_or_nothing services_bad_item (py "t") 3 machine0
           [] 1
           [ (organic_results,
              VList [ provider_item "a" "A"; VStr (py "oops");
                      provider_item "c" "C" ]) ]
           2 _ eq_refl eq_refl eq_refl eq_refl).
Defined.


(** X12 with four results of which the second cannot be fetched. *)
Lemma handler_fetches_every_result_witness :
  filter is_fetch
    (trace (snd (search_button_handler services_four (py "t") 4 machine0)))
  = [ EvHttpGet (VStr (py "A")); EvHttpGet (VStr (py "B"));
      EvHttpGet (VStr (py "C")); EvHttpGet (VStr (py "D")) ].
Proof.
  pose (run := search_web services_four (py "t") 4 machine0).
  pose (results := match fst run with Ok l => l | Raise _ => [] end).
  assert (Hs : search_web services_four (py "t") 4 machine0
               = (Ok results, snd run)) by reflexivity.
  rewrite (proj1 (handler_fetches_every_result services_four (py "t") 4
                    machine0 (snd run) results eq_refl Hs)).
  reflexivity.
Defined.

(** X13 with two results and no page that answers. *)
Lemma handler_all_pages_down_witness :
  exists d,
    knowledge_tree
      (session (snd (search_button_handler services_pages_down (py "t") 2 machine0)))
    = VDict d
    /\ dict_get (py "sources") d = Some (VList [])
    /\ count is_st_error
         (trace (snd (search_button_handler services_pages_down (py "t") 2
                        machine0))) = 0.
Proof.
  pose (run := search_web services_pages_down (py "t") 2 machine0).
  pose (results := match fst run with Ok l => l | Raise _ => [] end).
  assert (Hs : search_web services_pages_down (py "t") 2 machine0
               = (Ok results, snd run)) by reflexivity.
  destruct (handler_all_pages_down services_pages_down (py "t") 2 machine0
              (snd run) results eq_refl Hs eq_refl eq_refl)
    as (tree & m3 & Hgen & Herr & Hrun).
  vm_compute in Hgen.
  injection Hgen as <- <-.
  rewrite (Hrun _ eq_refl).
  eexists; split; [reflexivity|].
  split; reflexivity.
Defined.

(** X14 with four results and a model that fails. *)
Lemma analyze_topic_model_down_witness :
  fst (analyze_topic services_llm_down (py "t") machine0)
  = Ok (VDict [ (py "topic", VStr (py "t"));
                (py "summary",
                 VStr (py "Failed to summarize content due to an error."));
                (py "sources", VList [ VStr (py "A"); VStr (py "C") ]) ]).
Proof.
  pose (run := search_web services_llm_down (py "t") 5 machine0).
  pose (results := match fst run with Ok l => l | Raise _ => [] end).
  assert (Hs : search_web services_llm_down (py "t") 5 machine0
               = (Ok results, snd run)) by reflexivity.
  rewrite (analyze_topic_model_down services_llm_down (py "t") machine0
             (snd run) results
             (py "t" ++ [ch_lf] ++ py "SOURCE: a" ++ [ch_lf] ++ py "hello"
                ++ [ch_lf] ++ py "PAGE" ++ [ch_lf; ch_lf] ++ py "SOURCE: c"
                ++ [ch_lf] ++ py "hello" ++ [ch_lf] ++ py "PAGE")
             (py "quota exceeded") 6 Hs eq_refl eq_refl).
  reflexivity.
Defined.
